(** * quarto-ojs-offline: the specifier resolver and the CDN interceptor

    A shallow embedding of the two JavaScript programs of the extension:

    - [Resolver]: [_extensions/ojs-offline/resources/ojs-offline-resolver.js],
      the standalone resolver ([parsePackageIdentifier], [findLocalPath],
      [loadDependencyMap], the exported [setDebug]);
    - [Interceptor]: the inline script that [_extensions/ojs-offline/ojs-offline.lua]
      writes into the page header ([versionAliases], [findLocalPath],
      [cdnToLocal], the [window.fetch] and [document.createElement] overrides).

    A JavaScript string is modelled by the [string] of the bytes of its
    UTF-8 encoding (a lone surrogate by the three bytes the same scheme
    gives it).  Every character the two scripts look for (the at sign,
    the slash, the dot, the CDN prefixes) is ASCII, and an ASCII byte never
    occurs inside the encoding of another character, so searching,
    splitting and slicing at these characters cut the text at the same
    places as the code units of the engine; the only characters beyond
    ASCII the code is sensitive to are the line terminators U+2028 and
    U+2029, which the regular expression engine below recognizes by their
    encoding.  The dependency map is the list of the own enumerable
    properties of the object in [for ... in] order, and property reads go
    through the prototype chain as in the language. *)

From Stdlib Require Import String Ascii List Bool Arith Lia.
Import ListNotations.
Open Scope string_scope.

(** ** JavaScript string primitives used by the two scripts *)
Module Js.

(** [s.startsWith(p)] *)
Fixpoint startsWith (s p : string) {struct p} : bool :=
  match p, s with
  | EmptyString, _ => true
  | String c p', String d s' => Ascii.eqb d c && startsWith s' p'
  | String _ _, EmptyString => false
  end.

(** [s.slice(n)] / [s.substring(n)] for [0 <= n] *)
Fixpoint slice (n : nat) (s : string) : string :=
  match n, s with
  | S n', String _ s' => slice n' s'
  | _, _ => s
  end.

(** [s.substring(0, n)] *)
Fixpoint take (n : nat) (s : string) : string :=
  match n, s with
  | S n', String c s' => String c (take n' s')
  | _, _ => EmptyString
  end.

(** [s.endsWith(suffix)] *)
Definition endsWith (s suffix : string) : bool :=
  Nat.leb (String.length suffix) (String.length s)
  && String.eqb (slice (String.length s - String.length suffix) s) suffix.

(** [s.replace(pat, rep)] with a string pattern: the first occurrence only *)
Fixpoint replace (s pat rep : string) : string :=
  if startsWith s pat then rep ++ slice (String.length pat) s
  else match s with
       | EmptyString => EmptyString
       | String c s' => String c (replace s' pat rep)
       end.

(** [s.split(sep)] with a one-character separator; never the empty array *)
Fixpoint split (sep : ascii) (s : string) : list string :=
  match s with
  | EmptyString => [EmptyString]
  | String c s' =>
      if Ascii.eqb c sep then EmptyString :: split sep s'
      else match split sep s' with
           | h :: t => String c h :: t
           | [] => [String c EmptyString]
           end
  end.

(** [a[i]]: [None] is [undefined] *)
Definition item (a : list string) (i : nat) : option string := nth_error a i.

(** [a.pop()] on a fresh array: its last element *)
Definition pop (a : list string) : option string :=
  match rev a with
  | x :: _ => Some x
  | [] => None
  end.

(** [s.lastIndexOf(c)]: [None] is [-1] *)
Fixpoint lastIndexOf (c : ascii) (s : string) : option nat :=
  match s with
  | EmptyString => None
  | String c' s' =>
      match lastIndexOf c s' with
      | Some i => Some (S i)
      | None => if Ascii.eqb c' c then Some 0 else None
      end
  end.

(** [s.toLowerCase()], which the script uses only to compare a tag name
    with [script]: the ASCII capitals are lowered and every other byte is
    kept.  No text with a character outside ASCII lowers to [script], so
    the comparison comes out as in the engine. *)
Definition lowerChar (c : ascii) : ascii :=
  let n := nat_of_ascii c in
  if Nat.leb 65 n && Nat.leb n 90 then ascii_of_nat (n + 32) else c.

Fixpoint toLowerCase (s : string) : string :=
  match s with
  | EmptyString => EmptyString
  | String c s' => String (lowerChar c) (toLowerCase s')
  end.

(** The longest prefix whose characters satisfy [p], and the rest. *)
Fixpoint span (p : ascii -> bool) (s : string) : string * string :=
  match s with
  | EmptyString => (EmptyString, EmptyString)
  | String c s' =>
      if p c then let (a, b) := span p s' in (String c a, b)
      else (EmptyString, s)
  end.

Fixpoint all (p : ascii -> bool) (s : string) : bool :=
  match s with
  | EmptyString => true
  | String c s' => p c && all p s'
  end.

(** [s] does not contain the character [c]. *)
Definition lacks (c : ascii) (s : string) : bool :=
  all (fun x => negb (Ascii.eqb x c)) s.

(** [s.includes(pat)] *)
Fixpoint includes (s pat : string) : bool :=
  startsWith s pat
  || match s with
     | EmptyString => false
     | String _ s' => includes s' pat
     end.

(** The line terminators of the language: LF, CR, and U+2028 LINE SEPARATOR
    and U+2029 PARAGRAPH SEPARATOR, the last two in their encoding
    (E2 80 A8 and E2 80 A9). *)
Definition LF : string := String "010" EmptyString.
Definition CR : string := String "013" EmptyString.
Definition LINE_SEPARATOR : string :=
  String "226" (String "128" (String "168" EmptyString)).
Definition PARAGRAPH_SEPARATOR : string :=
  String "226" (String "128" (String "169" EmptyString)).

(** Truthiness of a string: only the empty string is falsy. *)
Definition truthyStr (s : string) : bool :=
  match s with
  | EmptyString => false
  | String _ _ => true
  end.

(** *** Objects used as maps

    [depMap], [dependencyMap] and [versionAliases] are plain objects whose
    values are strings.  An object is the list of its own enumerable
    properties, in the order [for (key in obj)] visits them. *)
Definition object := list (string * string).

(** The own property [k], if any. *)
Fixpoint own (o : object) (k : string) : option string :=
  match o with
  | [] => None
  | (k', v) :: o' => if String.eqb k' k then Some v else own o' k
  end.

(** The properties every plain object inherits from [Object.prototype];
    none of them is enumerable, and each holds a function or an object. *)
Definition objectPrototype : list string :=
  [ "constructor"; "hasOwnProperty"; "isPrototypeOf"; "propertyIsEnumerable";
    "toLocaleString"; "toString"; "valueOf"; "__proto__";
    "__defineGetter__"; "__defineSetter__"; "__lookupGetter__";
    "__lookupSetter__" ].

Definition inherited (k : string) : bool :=
  existsb (String.eqb k) objectPrototype.

(** What a property read can produce: a string of the map, or a member of
    [Object.prototype] found through the prototype chain. *)
Inductive value :=
| Str (s : string)
| Inherited (name : string).

(** [o[k]]: [None] is [undefined]. *)
Definition get (o : object) (k : string) : option value :=
  match own o k with
  | Some v => Some (Str v)
  | None => if inherited k then Some (Inherited k) else None
  end.

Definition truthy (v : value) : bool :=
  match v with
  | Str s => truthyStr s
  | Inherited _ => true
  end.

(** The idiom [if (o[k]) return o[k];]: the value read when it is truthy. *)
Definition hit (o : object) (k : string) : option value :=
  match get o k with
  | Some v => if truthy v then Some v else None
  | None => None
  end.

(** [for (const key in o) if (p(key)) return o[key];] *)
Fixpoint scan (p : string -> bool) (o all : object) : option value :=
  match o with
  | [] => None
  | (k, _) :: o' => if p k then get all k else scan p o' all
  end.

End Js.

(** ** Regular expressions, as the engine evaluates them

    A backtracking matcher for the fragment the three patterns of the
    sources are written in: literals, greedy [+] over a character class,
    concatenation, greedy [?], capturing groups and the end anchor.  All
    three patterns begin with [^], so a match can only start at index 0.
    None has the [u], [s] or [m] flag: the dot rejects the four line
    terminators and [$] matches at the end of the input only.  In the
    three patterns a repetition is followed by an ASCII literal, by the end
    anchor or by the end of the pattern, so a match never ends inside the
    encoding of a character. *)
Module Regex.

Inductive cls :=
| Dot                       (* .      : anything but a line terminator *)
| NoneOf (l : list ascii).  (* [^...] : anything but the listed characters *)

(** The text begins with a line terminator. *)
Definition lineTerminator (s : string) : bool :=
  Js.startsWith s Js.LF || Js.startsWith s Js.CR
  || Js.startsWith s Js.LINE_SEPARATOR
  || Js.startsWith s Js.PARAGRAPH_SEPARATOR.

Definition noneOf (l : list ascii) (c : ascii) : bool :=
  negb (existsb (Ascii.eqb c) l).

(** Does the class accept the character at the head of [String c rest]?
    The dot looks at the whole encoding of the character that begins
    there; the classes of the patterns list ASCII characters only. *)
Definition inCls (k : cls) (c : ascii) (rest : string) : bool :=
  match k with
  | Dot => negb (lineTerminator (String c rest))
  | NoneOf l => noneOf l c
  end.

(** Every position of the text is accepted by the class. *)
Fixpoint allIn (k : cls) (s : string) : bool :=
  match s with
  | EmptyString => true
  | String c s' => inCls k c s' && allIn k s'
  end.

Inductive re :=
| Chr (c : ascii)
| Plus (k : cls)
| Cat (r1 r2 : re)
| Opt (r : re)
| Grp (n : nat) (r : re)
| Eos.

(** Captures: the most recent binding of a group comes first. *)
Definition caps := list (nat * string).

Fixpoint group (cs : caps) (n : nat) : option string :=
  match cs with
  | [] => None
  | (m, s) :: cs' => if Nat.eqb m n then Some s else group cs' n
  end.

Definition cont := string -> caps -> option caps.

(** Greedy [k+]: take one more character first, give back on failure. *)
Fixpoint plus (k : cls) (s : string) (cs : caps) (kont : cont) : option caps :=
  match s with
  | EmptyString => None
  | String c s' =>
      if inCls k c s' then
        match plus k s' cs kont with
        | Some r => Some r
        | None => kont s' cs
        end
      else None
  end.

(** The text between the start [s] of a group and the rest [s']. *)
Definition consumed (s s' : string) : string :=
  Js.take (String.length s - String.length s') s.

Fixpoint run (r : re) (s : string) (cs : caps) (kont : cont) : option caps :=
  match r with
  | Chr c =>
      match s with
      | String c' s' => if Ascii.eqb c' c then kont s' cs else None
      | EmptyString => None
      end
  | Plus k => plus k s cs kont
  | Cat r1 r2 => run r1 s cs (fun s' cs' => run r2 s' cs' kont)
  | Opt r1 =>
      match run r1 s cs kont with
      | Some x => Some x
      | None => kont s cs
      end
  | Grp n r1 => run r1 s cs (fun s' cs' => kont s' ((n, consumed s s') :: cs'))
  | Eos =>
      match s with
      | EmptyString => kont s cs
      | String _ _ => None
      end
  end.

(** [s.match(/^r/)]: the captures of the first match, [None] for [null]. *)
Definition exec (r : re) (s : string) : option caps :=
  run r s [] (fun _ cs => Some cs).

Fixpoint cat (l : list re) (last : re) : re :=
  match l with
  | [] => last
  | r :: l' => Cat r (cat l' last)
  end.

End Regex.

(** ** ojs-offline-resolver.js *)
Module Resolver.
Import Js Regex.

Record packageIdentifier := {
  name : string;
  version : option string;   (* [None] is [null] *)
  path : string
}.

(** [/^(@[^/]+\/[^@]+)@([^/]+)(?:\/(.+))?$/] *)
Definition scopedRe : re :=
  cat [ Grp 1 (cat [Chr "@"; Plus (NoneOf ["/"%char]); Chr "/"]
                   (Plus (NoneOf ["@"%char])));
        Chr "@";
        Grp 2 (Plus (NoneOf ["/"%char]));
        Opt (Cat (Chr "/") (Grp 3 (Plus Dot))) ]
      Eos.

(** [/^([^@]+)@([^/]+)(?:\/(.+))?$/] *)
Definition regularRe : re :=
  cat [ Grp 1 (Plus (NoneOf ["@"%char]));
        Chr "@";
        Grp 2 (Plus (NoneOf ["/"%char]));
        Opt (Cat (Chr "/") (Grp 3 (Plus Dot))) ]
      Eos.

(** [m[i] || ''] *)
Definition orEmpty (o : option string) : string :=
  match o with
  | Some s => s
  | None => EmptyString
  end.

(** The record both regex branches build from a match [m]. *)
Definition ofMatch (m : caps) : packageIdentifier :=
  {| name := orEmpty (group m 1);
     version := group m 2;
     path := orEmpty (group m 3) |}.

Definition parsePackageIdentifier (specifier : string) : packageIdentifier :=
  match exec scopedRe specifier with
  | Some scopedMatch => ofMatch scopedMatch
  | None =>
      match exec regularRe specifier with
      | Some regularMatch => ofMatch regularMatch
      | None => {| name := specifier; version := None; path := EmptyString |}
      end
  end.

(** The configuration constants and the module-level binding. *)
Definition FALLBACK_TO_CDN : bool := false.

(** How a binding was declared: [const DEBUG = false;] and
    [let dependencyMap = {};]. *)
Inductive declaration := Const | Let.

Definition DEBUG_declaration : declaration := Const.
Definition dependencyMap_declaration : declaration := Let.

Inductive error :=
| TypeError      (* assignment to a constant, a call on a non-function *)
| SyntaxError    (* [response.json()] on a body that is not JSON *)
| NetworkError.  (* [fetch] rejected *)

(** The completion of a call (or of an awaited promise). *)
Inductive completion (A : Type) :=
| Normal (a : A)
| Throw (e : error).
Arguments Normal {A} a.
Arguments Throw {A} e.

Definition bind {A B} (c : completion A) (f : A -> completion B) : completion B :=
  match c with
  | Normal a => f a
  | Throw e => Throw e
  end.

Notation "x <- c ;; k" := (bind c (fun x => k))
  (at level 61, c at next level, right associativity).

Inductive message :=
| Log (text : string)
| Warn (text : string) (e : error).

(** The closure's variables and what reached the console. *)
Record state := {
  DEBUG : bool;
  dependencyMap : object;
  console : list message
}.

(** The state the script starts in: [DEBUG = false], [dependencyMap = {}]. *)
Definition initial : state :=
  {| DEBUG := false; dependencyMap := []; console := [] |}.

(** [x = v] on a binding declared [d]. *)
Definition assign (d : declaration) (updated : state) : completion state :=
  match d with
  | Let => Normal updated
  | Const => Throw TypeError
  end.

Definition log (text : string) (st : state) : state :=
  if DEBUG st
  then {| DEBUG := DEBUG st; dependencyMap := dependencyMap st;
          console := console st ++ [Log text] |}
  else st.

Definition warn (text : string) (e : error) (st : state) : state :=
  {| DEBUG := DEBUG st; dependencyMap := dependencyMap st;
     console := console st ++ [Warn text e] |}.

(** [setDebug: (enabled) => { DEBUG = enabled; }] *)
Definition setDebug (enabled : bool) (st : state) : completion state :=
  assign DEBUG_declaration
    {| DEBUG := enabled; dependencyMap := dependencyMap st;
       console := console st |}.

(** *** Loading the dependency map *)

(** What [fetch(url)] settles to, and what [response.json()] gives. *)
Inductive fetched :=
| Rejected
| Response (ok : bool) (json : option object).  (* [None]: the body does not parse *)

(** The page the script runs in: the element with id [ojs-dependency-map]
    (absent, or present with its [src] attribute) and the network. *)
Record page := {
  mapScript : option (option string);
  fetch : string -> fetched
}.

Definition doFetch (pg : page) (url : string) : completion (bool * option object) :=
  match fetch pg url with
  | Rejected => Throw NetworkError
  | Response ok body => Normal (ok, body)
  end.

Definition json (response : bool * option object) : completion object :=
  match snd response with
  | Some o => Normal o
  | None => Throw SyntaxError
  end.

Definition setDependencyMap (o : object) (st : state) : completion state :=
  assign dependencyMap_declaration
    {| DEBUG := DEBUG st; dependencyMap := o; console := console st |}.

(** The second half of the [try] block: the direct fetch. *)
Definition directFetch (pg : page) (st : state) : completion state :=
  response <- doFetch pg "ojs-offline-dependency-map.json" ;;
  if fst response then
    o <- json response ;;
    st' <- setDependencyMap o st ;;
    Normal (log "Dependency map loaded from direct fetch" st')
  else Normal st.

(** The body of the [try] block. *)
Definition tryLoad (pg : page) (st : state) : completion state :=
  match mapScript pg with
  | Some (Some mapUrl) =>
      if truthyStr mapUrl then
        response <- doFetch pg mapUrl ;;
        o <- json response ;;
        st' <- setDependencyMap o st ;;
        Normal (log "Dependency map loaded" st')
      else directFetch pg st
  | _ => directFetch pg st
  end.

(** [async function loadDependencyMap()]: [Throw] would be a rejected promise. *)
Definition loadDependencyMap (pg : page) (st : state) : completion state :=
  match tryLoad pg st with
  | Normal st' => Normal st'
  | Throw e => Normal (warn "[OJS Offline] Failed to load dependency map:" e st)
  end.

(** The primary source yields a map: the element is there, its [src] is not
    empty, the fetch settles to a response whose body parses (the primary
    path does not look at [response.ok]). *)
Definition primaryLoads (pg : page) : bool :=
  match mapScript pg with
  | Some (Some mapUrl) =>
      truthyStr mapUrl
      && match fetch pg mapUrl with
         | Response _ (Some _) => true
         | _ => false
         end
  | _ => false
  end.

(** The direct fetch yields a map: an [ok] response whose body parses. *)
Definition fallbackLoads (pg : page) : bool :=
  match fetch pg "ojs-offline-dependency-map.json" with
  | Response true (Some _) => true
  | _ => false
  end.

(** A page without the map element, on a network where every fetch rejects. *)
Definition offlinePage : page :=
  {| mapScript := None; fetch := fun _ => Rejected |}.

(** *** Resolution *)

Definition findLocalPath (dependencyMap : object) (specifier : string)
  : option value :=
  (* Direct lookup *)
  match hit dependencyMap specifier with
  | Some v => Some v
  | None =>
      let parsed := parsePackageIdentifier specifier in
      let hasVersion :=
        match version parsed with
        | Some v => truthyStr v
        | None => false
        end in
      (* Try with full path *)
      let fullKey :=
        if hasVersion
        then name parsed ++ "@" ++ orEmpty (version parsed)
             ++ (if truthyStr (path parsed) then "/" ++ path parsed else "")
        else specifier in
      match hit dependencyMap fullKey with
      | Some v => Some v
      | None =>
          (* Try package base (name@version) *)
          let baseKey :=
            if hasVersion
            then name parsed ++ "@" ++ orEmpty (version parsed)
            else name parsed in
          match hit dependencyMap baseKey with
          | Some v => Some v
          | None =>
              (* Try to find any version of the package *)
              let namePrefix := name parsed ++ "@" in
              scan (fun key => startsWith key namePrefix)
                   dependencyMap dependencyMap
          end
      end
  end.

End Resolver.

(** ** The inline interceptor written by ojs-offline.lua *)
Module Interceptor.
Import Js Regex.

(** CDN URLs to intercept *)
Definition CDN_JSDELIVR : string := "https://cdn.jsdelivr.net/npm/".
Definition CDN_OBSERVABLE : string := "https://cdn.observableusercontent.com/npm/".

(** Version aliases - map major versions to specific versions we have *)
Definition versionAliases : object :=
  [ ("d3@7", "d3@7.8.5");
    ("d3@6", "d3@7.8.5");
    ("lodash@4", "lodash@4.17.21");
    ("htl@0", "htl@0.3.1");
    ("@observablehq/inputs@0", "@observablehq/inputs@0.10.6");
    ("@observablehq/plot@0", "@observablehq/plot@0.6.11");
    ("vega@5", "vega@5.22.1");
    ("vega-lite@5", "vega-lite@5.6.0") ].

(** [/^(@?[^@\/]+(?:\/[^@\/]+)?)/] *)
Definition bareRe : re :=
  Grp 1 (cat [ Opt (Chr "@"); Plus (NoneOf ["@"%char; "/"%char]) ]
             (Opt (Cat (Chr "/") (Plus (NoneOf ["@"%char; "/"%char]))))).

(** [a[0]] of a [split] result, which always exists. *)
Definition first (a : list string) : string := hd EmptyString a.

(** The "Try version alias" block: the value it returns, if it returns. *)
Definition viaAlias (aliases depMap : object) (specifier : string)
  : option value :=
  match lastIndexOf "@" specifier with
  | Some atIndex =>
      if Nat.ltb 0 atIndex then
        let name := take atIndex specifier in
        let version := slice (atIndex + 1) specifier in
        (* Check for major version alias (e.g., d3@7 -> d3@7.8.5) *)
        let majorVersion := first (split "." version) in
        let aliasKey := name ++ "@" ++ majorVersion in
        match hit aliases aliasKey with
        | Some (Str aliased) => hit depMap aliased
        | Some (Inherited _) => None  (* [aliasKey] contains an at sign *)
        | None => None
        end
      else None
  | None => None
  end.

(** The "Try without version" block. *)
Definition viaBareName (depMap : object) (specifier : string) : option value :=
  match exec bareRe specifier with
  | Some bareMatch =>
      match group bareMatch 1 with
      | Some bare => hit depMap bare
      | None => None
      end
  | None => None
  end.

(** [specifier.split('@')[0] || specifier.split('/')[0]] *)
Definition pkgNameOf (specifier : string) : string :=
  let a := first (split "@" specifier) in
  if truthyStr a then a else first (split "/" specifier).

(** [findLocalPath] with the alias object as a parameter. *)
Definition findLocalPathWith (aliases depMap : object) (specifier : string)
  : option value :=
  (* Direct lookup *)
  match hit depMap specifier with
  | Some v => Some v
  | None =>
      (* Try version alias *)
      match viaAlias aliases depMap specifier with
      | Some v => Some v
      | None =>
          (* Try without version (bare package name) *)
          match viaBareName depMap specifier with
          | Some v => Some v
          | None =>
              (* Try to find any version of the package *)
              let pkgName := pkgNameOf specifier in
              scan (fun key => startsWith key (pkgName ++ "@")
                               || String.eqb key pkgName)
                   depMap depMap
          end
      end
  end.

Definition findLocalPath : object -> string -> option value :=
  findLocalPathWith versionAliases.

(** What [cdnToLocal] returns: [null], a truthy value found in the map, or
    the object [{ isPackageJson: true, pkg }]. *)
Inductive local :=
| Null
| LocalPath (v : value)
| PackageJson (pkg : string).

(** The part of the URL after a recognized CDN prefix ([pkg], or [null]). *)
Definition stripCdn (url : string) : option string :=
  if startsWith url CDN_JSDELIVR
  then Some (slice (String.length CDN_JSDELIVR) url)
  else if startsWith url CDN_OBSERVABLE
  then Some (slice (String.length CDN_OBSERVABLE) url)
  else None.

(** Convert CDN URL to local path *)
Definition cdnToLocal (depMap : object) (url : string) : local :=
  match stripCdn url with
  | Some pkg =>
      if truthyStr pkg then
        (* Handle package.json requests *)
        if endsWith pkg "/package.json"
        then PackageJson (replace pkg "/package.json" "")
        else match findLocalPath depMap pkg with
             | Some localPath =>
                 if truthy localPath then LocalPath localPath else Null
             | None => Null
             end
      else Null
  | None => Null
  end.

(** *** The [window.fetch] override *)

(** The first argument of [fetch]: a string, a [Request] (with its [url]),
    or anything else (with its [String(input)]). *)
Inductive input :=
| InString (s : string)
| InRequest (url : string)
| InOther (str : string).

Definition urlOf (i : input) : string :=
  match i with
  | InString s => s
  | InRequest url => url
  | InOther str => str
  end.

Record manifest := {
  name : string;
  version : string;
  main : string;
  jsdelivr : string;
  unpkg : string
}.

(** [mainPath.split('/').pop()] *)
Definition basename (p : string) : string :=
  match pop (split "/" p) with
  | Some b => b
  | None => EmptyString
  end.

(** What the override hands to [originalFetch] as its first argument. *)
Inductive forwarded :=
| Unchanged (i : input)               (* [input] as it came *)
| Url (v : value)                     (* [input = url] *)
| NewRequest (v : value) (i : input). (* [new Request(url, input)] *)

Inductive outcome (Init : Type) :=
| Delegate (a : forwarded) (init : Init)   (* [originalFetch.call(this, input, init)] *)
| Respond (m : manifest)                   (* a resolved 200 response with this JSON body *)
| Raise.                                   (* TypeError: [mainPath.split] is not a function *)
Arguments Delegate {Init} a init.
Arguments Respond {Init} m.
Arguments Raise {Init}.

Definition fetch {Init : Type} (depMap : object) (i : input) (init : Init)
  : outcome Init :=
  let url := urlOf i in
  match cdnToLocal depMap url with
  | PackageJson pkgName =>
      (* Return a fake package.json with the main file info *)
      match findLocalPath depMap pkgName with
      | Some mainPath =>
          if truthy mainPath then
            match mainPath with
            | Str p =>
                Respond
                  {| name := first (split "@" pkgName);
                     version :=
                       match item (split "@" pkgName) 1 with
                       | Some v => if truthyStr v then v else "1.0.0"
                       | None => "1.0.0"
                       end;
                     main := basename p;
                     jsdelivr := basename p;
                     unpkg := basename p |}
            | Inherited _ => Raise
            end
          else Delegate (Unchanged i) init
      | None => Delegate (Unchanged i) init
      end
  | LocalPath v =>
      (* Redirect to local file *)
      match i with
      | InString _ => Delegate (Url v) init
      | InRequest _ => Delegate (NewRequest v i) init
      | InOther _ => Delegate (Unchanged i) init
      end
  | Null => Delegate (Unchanged i) init
  end.

(** *** The [document.createElement] override *)

(** The value handed to [setAttribute] or assigned to [src].  The native
    setter takes any value and converts it to a string; the overrides hand
    it to [cdnToLocal] as it comes, without the [String(...)] the [fetch]
    override applies, and [cdnToLocal] begins with [url.startsWith(...)].
    [ANotString] is a value on which that call throws: [null] and
    [undefined], and any value without a [startsWith] method (a number, a
    boolean, a [URL] object, a plain object); it is kept with the text
    [String(value)] gives.  A [String] object goes through the code as the
    string it wraps and is covered by [AString]. *)
Inductive arg :=
| AString (s : string)
| ANotString (str : string).

(** What a call of one of the two setters does. *)
Inductive called :=
| OriginalSetAttribute (name : string) (value : arg)
| TypeError.   (* [url.startsWith] is not a function *)

(** [const local = cdnToLocal(value); if (local && typeof local === 'string') value = local;]
    [None] when [cdnToLocal] throws. *)
Definition rewriteSrc (depMap : object) (value : arg) : option arg :=
  match value with
  | AString url =>
      match cdnToLocal depMap url with
      | LocalPath (Str s) => Some (AString s)
      | _ => Some value
      end
  | ANotString _ => None
  end.

(** The wrapped [element.setAttribute(name, value)]. *)
Definition setAttribute (depMap : object) (name : string) (value : arg)
  : called :=
  if String.eqb name "src"
  then match rewriteSrc depMap value with
       | Some value' => OriginalSetAttribute name value'
       | None => TypeError
       end
  else OriginalSetAttribute name value.

(** The [src] property setter. *)
Definition setSrc (depMap : object) (value : arg) : called :=
  match rewriteSrc depMap value with
  | Some value' => OriginalSetAttribute "src" value'
  | None => TypeError
  end.

(** The element [document.createElement] returns: script elements get the
    two setters above, any other element is the original one. *)
Record element := {
  tagName : string;
  intercepted : bool
}.

Definition createElement (tag : string) : element :=
  {| tagName := tag;
     intercepted := String.eqb (toLowerCase tag) "script" |}.

(** [element.setAttribute(name, value)] on an element made by the
    overridden [createElement]: on a script element the wrapped function
    runs, on any other the original one. *)
Definition setAttributeOn (depMap : object) (e : element) (name : string)
  (value : arg) : called :=
  if intercepted e then setAttribute depMap name value
  else OriginalSetAttribute name value.

(** *** Installation

    The script body saves the current [window.fetch] and
    [document.createElement] and replaces each by a function closing over
    the saved one. *)
Inductive fetchImpl :=
| NativeFetch
| FetchOverride (depMap : object) (originalFetch : fetchImpl).

Inductive createElementImpl :=
| NativeCreateElement
| CreateElementOverride (depMap : object) (originalCreateElement : createElementImpl).

Record window := {
  window_fetch : fetchImpl;
  document_createElement : createElementImpl
}.

(** One execution of the inline script. *)
Definition install (depMap : object) (w : window) : window :=
  {| window_fetch := FetchOverride depMap (window_fetch w);
     document_createElement :=
       CreateElementOverride depMap (document_createElement w) |}.

(** [n] executions of the inline script, one after the other. *)
Fixpoint installTimes (n : nat) (depMap : object) (w : window) : window :=
  match n with
  | 0 => w
  | S n' => install depMap (installTimes n' depMap w)
  end.

(** How many overrides a call goes through before the native primitive. *)
Fixpoint fetchDepth (f : fetchImpl) : nat :=
  match f with
  | NativeFetch => 0
  | FetchOverride _ original => S (fetchDepth original)
  end.

Fixpoint createElementDepth (c : createElementImpl) : nat :=
  match c with
  | NativeCreateElement => 0
  | CreateElementOverride _ original => S (createElementDepth original)
  end.

Definition pristine : window :=
  {| window_fetch := NativeFetch;
     document_createElement := NativeCreateElement |}.

(** [cdn] is one of the two prefixes [cdnToLocal] recognizes. *)
Definition isCdn (cdn : string) : Prop :=
  cdn = CDN_JSDELIVR \/ cdn = CDN_OBSERVABLE.

End Interceptor.

(** ** The resolver as the specification words it (section 4.2)

    Five strategies in strict precedence order over the Dependency Map and
    the Version Alias Table, both read as finite maps, with the parser of
    section 4.1. *)
Module Spec.
Import Js.

Fixpoint firstHit {A : Type} (l : list (option A)) : option A :=
  match l with
  | [] => None
  | Some v :: _ => Some v
  | None :: l' => firstHit l'
  end.

(** The canonical [name@version[/subpath]] string of a parsed specifier that
    carries a version. *)
Definition canonical (p : Resolver.packageIdentifier) : option string :=
  match Resolver.version p with
  | Some v =>
      Some (Resolver.name p ++ "@" ++ v
            ++ (if truthyStr (Resolver.path p) then "/" ++ Resolver.path p else ""))
  | None => None
  end.

(** Drop the subpath: [name@version]. *)
Definition basePackage (p : Resolver.packageIdentifier) : option string :=
  match Resolver.version p with
  | Some v => Some (Resolver.name p ++ "@" ++ v)
  | None => None
  end.

(** The substring before the first [c] (all of [s] when there is none). *)
Fixpoint before (c : ascii) (s : string) : string :=
  match s with
  | EmptyString => EmptyString
  | String x s' => if Ascii.eqb x c then EmptyString else String x (before c s')
  end.

(** [name@majorVersion] *)
Definition aliasKey (p : Resolver.packageIdentifier) : option string :=
  match Resolver.version p with
  | Some v => Some (Resolver.name p ++ "@" ++ before "." v)
  | None => None
  end.

Definition lookup (map : object) (k : option string) : option string :=
  match k with
  | Some k' => own map k'
  | None => None
  end.

(** The value of the first key starting with [name@]. *)
Definition prefixScan (map : object) (name : string) : option string :=
  match find (fun kv => startsWith (fst kv) (name ++ "@")) map with
  | Some kv => Some (snd kv)
  | None => None
  end.

Definition resolve (aliases map : object) (specifier : string) : option string :=
  let p := Resolver.parsePackageIdentifier specifier in
  firstHit
    [ own map specifier;                          (* 1. exact key *)
      lookup map (canonical p);                   (* 2. canonical reconstruction *)
      lookup map (basePackage p);                 (* 3. base package *)
      lookup map (lookup aliases (aliasKey p));   (* 4. alias *)
      prefixScan map (Resolver.name p) ].         (* 5. prefix scan *)

End Spec.

(** ** The two specifier forms, read off without the regex engine *)
Module Syntax.
Import Js Regex.

Definition notSlash : ascii -> bool := noneOf ["/"%char].
Definition notAt : ascii -> bool := noneOf ["@"%char].

(** The text holds no line terminator: no LF, no CR, no U+2028 and no
    U+2029. *)
Definition singleLine (q : string) : bool :=
  lacks "010" q && lacks "013" q
  && negb (includes q LINE_SEPARATOR) && negb (includes q PARAGRAPH_SEPARATOR).

(** The optional [/subpath] up to the end of the input: a subpath is
    non-empty and holds no line terminator. *)
Definition subpathOf (t : string) : option (option string) :=
  match t with
  | EmptyString => Some None
  | String c p =>
      if Ascii.eqb c "/" then
        if truthyStr p && singleLine p then Some (Some p) else None
      else None
  end.

(** [version[/subpath]] *)
Definition versionOf (r : string) : option (string * option string) :=
  match span notSlash r with
  | (String c v, t) =>
      match subpathOf t with
      | Some p => Some (String c v, p)
      | None => None
      end
  | (EmptyString, _) => None
  end.

(** [name@version[/subpath]]: the name, the version, the subpath if any. *)
Definition regularParts (s : string)
  : option (string * (string * option string)) :=
  match span notAt s with
  | (String c n, String c' r) =>
      if Ascii.eqb c' "@" then
        match versionOf r with
        | Some vp => Some (String c n, vp)
        | None => None
        end
      else None
  | _ => None
  end.

(** [@scope/name@version[/subpath]]: the name keeps its scope. *)
Definition scopedParts (s : string)
  : option (string * (string * option string)) :=
  match s with
  | String c s1 =>
      if Ascii.eqb c "@" then
        match span notSlash s1 with
        | (String c1 scope, String c2 s2) =>
            if Ascii.eqb c2 "/" then
              match span notAt s2 with
              | (String c3 n, String c4 r) =>
                  if Ascii.eqb c4 "@" then
                    match versionOf r with
                    | Some vp =>
                        Some ("@" ++ String c1 scope ++ "/" ++ String c3 n, vp)
                    | None => None
                    end
                  else None
              | _ => None
              end
            else None
        | _ => None
        end
      else None
  | EmptyString => None
  end.

Definition parts (s : string) : option (string * (string * option string)) :=
  match scopedParts s with
  | Some x => Some x
  | None => regularParts s
  end.

Definition scopedForm (s : string) : bool :=
  match scopedParts s with
  | Some _ => true
  | None => false
  end.

Definition unscopedForm (s : string) : bool :=
  match regularParts s with
  | Some _ => true
  | None => false
  end.

(** The same two forms as decompositions of the input. *)
Definition subpathShape (p : string) : Prop :=
  p = "" \/ exists q, p = "/" ++ q /\ q <> "" /\ singleLine q = true.

Definition versionShape (r : string) : Prop :=
  exists v p, r = v ++ p /\ v <> "" /\ all notSlash v = true /\ subpathShape p.

Definition unscopedShape (s : string) : Prop :=
  exists n r, s = n ++ "@" ++ r /\ n <> "" /\ all notAt n = true /\ versionShape r.

Definition scopedShape (s : string) : Prop :=
  exists scope n r,
    s = "@" ++ scope ++ "/" ++ n ++ "@" ++ r
    /\ scope <> "" /\ all notSlash scope = true
    /\ n <> "" /\ all notAt n = true /\ versionShape r.

(** The bare-name fallback. *)
Definition bare (s : string) : Resolver.packageIdentifier :=
  {| Resolver.name := s; Resolver.version := None; Resolver.path := "" |}.

Definition subpathText (op : option string) : string :=
  match op with
  | Some q => "/" ++ q
  | None => ""
  end.

(** The captures a match with these parts leaves. *)
Definition tailCaps (cs : caps) (r : string * option string) : caps :=
  match snd r with
  | Some p => (3, p) :: (2, fst r) :: cs
  | None => (2, fst r) :: cs
  end.

Definition capsOf (x : string * (string * option string)) : caps :=
  tailCaps [(1, fst x)] (snd x).

(** The tail [([^/]+)(?:\/(.+))?$] the two patterns share. *)
Definition tailRe : re :=
  cat [ Grp 2 (Plus (NoneOf ["/"%char]));
        Opt (Cat (Chr "/") (Grp 3 (Plus Dot))) ] Eos.

End Syntax.

(** ** The strategies each resolver goes through, in order *)
Module Strategies.
Import Js.

(** The value of the first key, in enumeration order, that satisfies [p]. *)
Definition anyKey (p : string -> bool) (o : object) : option value :=
  match find (fun kv => p (fst kv)) o with
  | Some kv => get o (fst kv)
  | None => None
  end.

Definition orElse (o : option string) (d : string) : string :=
  match o with
  | Some k => k
  | None => d
  end.

(** ojs-offline-resolver.js, block by block: the lookups of the code on
    the record its parser returns. *)
Definition standalone (depMap : object) (specifier : string)
  : list (option value) :=
  let p := Resolver.parsePackageIdentifier specifier in
  [ hit depMap specifier;
    hit depMap (orElse (Spec.canonical p) specifier);
    hit depMap (orElse (Spec.basePackage p) (Resolver.name p));
    anyKey (fun key => startsWith key (Resolver.name p ++ "@")) depMap ].

(** The inline interceptor, block by block: the lookups of the code, each
    block as the script computes it. *)
Definition inline (aliases depMap : object) (specifier : string)
  : list (option value) :=
  let pkgName := Interceptor.pkgNameOf specifier in
  [ hit depMap specifier;
    Interceptor.viaAlias aliases depMap specifier;
    Interceptor.viaBareName depMap specifier;
    anyKey (fun key => startsWith key (pkgName ++ "@") || String.eqb key pkgName)
           depMap ].

(** *** The same steps, worded without the blocks of the code *)

(** The text before the last [c] and the text after it. *)
Fixpoint aroundLast (c : ascii) (s : string) : option (string * string) :=
  match s with
  | EmptyString => None
  | String x s' =>
      match aroundLast c s' with
      | Some (a, b) => Some (String x a, b)
      | None => if Ascii.eqb x c then Some (EmptyString, s') else None
      end
  end.

(** The alias step: the specifier is cut at its last at sign into a
    non-empty name and a version; [name@major], the major version being the
    text before the first dot, is looked up among the entries of the alias
    table, and its target in the map. *)
Definition aliasStep (aliases depMap : object) (specifier : string)
  : option value :=
  match aroundLast "@" specifier with
  | Some (String c n, version) =>
      match own aliases (String c n ++ "@" ++ Spec.before "." version) with
      | Some fullKey => if truthyStr fullKey then hit depMap fullKey else None
      | None => None
      end
  | _ => None
  end.

Definition nameChar (c : ascii) : bool :=
  negb (Ascii.eqb c "@") && negb (Ascii.eqb c "/").

(** A slash followed by a non-empty run of name characters, when the text
    begins with one; nothing otherwise. *)
Definition slashPart (rest : string) : string :=
  match rest with
  | String c t =>
      if Ascii.eqb c "/" then
        match fst (span nameChar t) with
        | EmptyString => EmptyString
        | b => "/" ++ b
        end
      else EmptyString
  | EmptyString => EmptyString
  end.

(** The longest non-empty run of name characters, with the slash part that
    follows it. *)
Definition nameRun (s : string) : option string :=
  match span nameChar s with
  | (EmptyString, _) => None
  | (a, rest) => Some (a ++ slashPart rest)
  end.

(** The bare package name a specifier begins with: an optional at sign,
    a name, and a second name after a slash if there is one. *)
Definition bareName (s : string) : option string :=
  match s with
  | String c t =>
      if Ascii.eqb c "@" then option_map (String c) (nameRun t) else nameRun s
  | EmptyString => None
  end.

Definition bareNameStep (depMap : object) (specifier : string) : option value :=
  match bareName specifier with
  | Some b => hit depMap b
  | None => None
  end.

(** The package name of the last step: the text before the first at sign,
    or, when the specifier begins with an at sign, the text before the
    first slash. *)
Definition packageName (specifier : string) : string :=
  match Spec.before "@" specifier with
  | EmptyString => Spec.before "/" specifier
  | a => a
  end.

(** The inline interceptor, step by step. *)
Definition inlineSteps (aliases depMap : object) (specifier : string)
  : list (option value) :=
  [ hit depMap specifier;
    aliasStep aliases depMap specifier;
    bareNameStep depMap specifier;
    anyKey (fun key => startsWith key (packageName specifier ++ "@")
                       || String.eqb key (packageName specifier))
           depMap ].

(** ojs-offline-resolver.js, step by step, on the parts of the specifier
    as [Syntax.parts] reads them off. *)
Definition standaloneSteps (depMap : object) (specifier : string)
  : list (option value) :=
  match Syntax.parts specifier with
  | Some (n, (v, op)) =>
      [ hit depMap specifier;
        hit depMap (n ++ "@" ++ v ++ Syntax.subpathText op);
        hit depMap (n ++ "@" ++ v);
        anyKey (fun key => startsWith key (n ++ "@")) depMap ]
  | None =>
      [ hit depMap specifier;
        hit depMap specifier;
        hit depMap specifier;
        anyKey (fun key => startsWith key (specifier ++ "@")) depMap ]
  end.

End Strategies.

(** ** Dependency maps used in the scenarios *)
Module Scenario.
Import Js.

(** The map of scenario 1 of the specification. *)
Definition d3Only : object :=
  [ ("d3@7.8.5", "libs/d3@7.8.5/d3.min.js") ].

(** Two versions of d3, the older one first. *)
Definition twoD3 : object :=
  [ ("d3@5.0.0", "libs/d3@5.0.0/d3.min.js");
    ("d3@7.8.5", "libs/d3@7.8.5/d3.min.js") ].

(** Two versions of lodash. *)
Definition twoLodash : object :=
  [ ("lodash@4.17.21", "libs/lodash@4.17.21/lodash.min.js");
    ("lodash@3.10.1", "libs/lodash@3.10.1/lodash.min.js") ].

(** A map that has the exact version [d3@7.1.0] next to the alias target. *)
Definition exactAndAlias : object :=
  [ ("d3@7.1.0", "libs/d3@7.1.0/d3.min.js");
    ("d3@7.8.5", "libs/d3@7.8.5/d3.min.js") ].

(** A map that has a subpath-specific key next to the alias target. *)
Definition subpathAndAlias : object :=
  [ ("d3@7.1/dist/file.js", "libs/d3@7.1/dist/file.js");
    ("d3@7.8.5", "libs/d3@7.8.5/d3.min.js") ].

(** The map of scenario 2 of the specification. *)
Definition lodashFile : object :=
  [ ("lodash@4.17.21/lodash.min.js", "libs/lodash/lodash.min.js") ].

(** A map with one scoped package. *)
Definition plotOnly : object :=
  [ ("@observablehq/plot@0.6.11",
     "libs/@observablehq/plot@0.6.11/dist/plot.umd.min.js") ].

End Scenario.

(** ** ojs-offline-resolver.js: resolving to a URL and requiring a module *)
Module Loader.
Import Js.

Definition CDN_BASE : string := "https://cdn.jsdelivr.net/npm/".

(** Why the promise of a [require] rejects. *)
Inductive failure :=
| CannotResolve (specifier : string)   (* [Cannot resolve module: ...] *)
| FailedToLoad (specifier : string)    (* [Failed to load module: ...] *)
| Thrown (e : Resolver.error).         (* what [new URL] threw *)

(** What a [require] settles to. *)
Inductive required (M : Type) :=
| Loaded (m : M)
| Rejects (f : failure).
Arguments Loaded {M} m.
Arguments Rejects {M} f.

(** [specifier.split('@')[0].split('/').pop()]: the name under which the
    script-tag fallback looks for the module among the globals. *)
Definition moduleNameOf (specifier : string) : string :=
  match pop (split "/" (Interceptor.first (split "@" specifier))) with
  | Some n => n
  | None => EmptyString
  end.

Section Browser.

(** [new URL(x, base).href], the browser's URL resolution: it converts [x]
    to a string, and throws when the result does not parse. *)
Variable href : value -> string -> Resolver.completion string.

(** [window.location.href] *)
Variable location : string.

(** [base || window.location.href] *)
Definition baseOr (base : option string) : string :=
  match base with
  | Some b => if truthyStr b then b else location
  | None => location
  end.

(** The end of [resolveModuleSpecifier]: the CDN fallback when it is
    enabled, else one [console.error] naming the specifier, and null. *)
Definition noResolution (specifier : string)
  : Resolver.completion (option string * list string) :=
  if Resolver.FALLBACK_TO_CDN
  then Resolver.Normal (Some (CDN_BASE ++ specifier), [])
  else Resolver.Normal (None, [specifier]).

(** [resolveModuleSpecifier(specifier, base)]: the URL or null, with the
    specifiers reported through [console.error]. *)
Definition resolveModuleSpecifier (dependencyMap : object) (specifier : string)
  (base : option string) : Resolver.completion (option string * list string) :=
  (* Check if it's already a full URL *)
  if startsWith specifier "http://" || startsWith specifier "https://"
  then Resolver.Normal (Some specifier, [])
  (* Check if it's a relative path *)
  else if startsWith specifier "./" || startsWith specifier "../"
  then Resolver.bind (href (Str specifier) (baseOr base))
         (fun u => Resolver.Normal (Some u, []))
  else
    (* Try to find local path *)
    match Resolver.findLocalPath dependencyMap specifier with
    | Some localPath =>
        if truthy localPath
        then Resolver.bind (href localPath (baseOr base))
               (fun u => Resolver.Normal (Some u, []))
        else noResolution specifier
    | None => noResolution specifier
    end.

(** The module system of the page: what [import(url)] yields ([None] when
    it rejects), whether a script tag with that [src] loads, the truthy
    globals [window[name]], and a fresh [{}]. *)
Variable M : Type.
Variable import : string -> option M.
Variable scriptLoads : string -> bool.
Variable global : string -> option M.
Variable emptyObject : M.

(** The function [createOfflineRequire] returns. *)
Definition ojsOfflineRequire (dependencyMap : object) (specifier : string)
  : required M :=
  match resolveModuleSpecifier dependencyMap specifier None with
  | Resolver.Throw e => Rejects (Thrown e)
  | Resolver.Normal (None, _) => Rejects (CannotResolve specifier)
  | Resolver.Normal (Some resolvedUrl, _) =>
      if truthyStr resolvedUrl then
        (* Try to load as ES module *)
        match import resolvedUrl with
        | Some module => Loaded module
        | None =>
            (* Fallback: inject as script tag (for UMD modules) *)
            if scriptLoads resolvedUrl then
              Loaded
                match global (moduleNameOf specifier) with
                | Some m => m
                | None =>
                    match global specifier with
                    | Some m => m
                    | None => emptyObject
                    end
                end
            else Rejects (FailedToLoad specifier)
        end
      else Rejects (CannotResolve specifier)
  end.

(** The [window._ojs.require] that [hookIntoQuartoOJS] installs over
    [originalRequire]. *)
Variable originalRequire : string -> required M.

Definition require (dependencyMap : object) (specifier : string) : required M :=
  match Resolver.findLocalPath dependencyMap specifier with
  | Some localPath =>
      if truthy localPath
      then ojsOfflineRequire dependencyMap specifier
      else originalRequire specifier
  | None => originalRequire specifier
  end.

End Browser.

End Loader.

(** ** ojs-offline.lua: the filter *)
Module Filter.
Import Js.

(** [s:gsub(pat, rep)] for a pattern and a replacement without magic
    characters: every occurrence, left to right, without overlap.  [skip]
    counts the characters of a replaced occurrence still to pass over. *)
Fixpoint gsubFrom (pat rep : string) (skip : nat) (s : string) : string :=
  match s with
  | EmptyString => EmptyString
  | String c s' =>
      match skip with
      | S k => gsubFrom pat rep k s'
      | 0 =>
          if startsWith s pat
          then rep ++ gsubFrom pat rep (String.length pat - 1) s'
          else String c (gsubFrom pat rep 0 s')
      end
  end.

Definition gsub (s pat rep : string) : string := gsubFrom pat rep 0 s.

(** [s] has an occurrence of [pat]. *)
Fixpoint occurs (pat s : string) : bool :=
  startsWith s pat
  || match s with
     | EmptyString => false
     | String _ s' => occurs pat s'
     end.

(** [offset:match("/$")] *)
Definition endsWithSlash (offset : string) : bool := endsWith offset "/".

(** The normalized [offset]: [quarto.project.offset or ""], with ["."]
    turned into [""] and a slash appended when one is missing. *)
Definition offsetOf (project_offset : option string) : string :=
  let offset :=
    match project_offset with
    | Some o => o
    | None => EmptyString
    end in
  if String.eqb offset "." then EmptyString
  else if negb (String.eqb offset "") && negb (endsWithSlash offset)
  then offset ++ "/"
  else offset.

Definition extension_dir (project_offset : option string) : string :=
  offsetOf project_offset ++ "_extensions/ojs-offline/".

Definition map_path (project_offset : option string) : string :=
  extension_dir project_offset ++ "resources/dependency-map.json".

Definition libs_base : string :=
  "site_libs/quarto-contrib/ojs-offline-libs-1.0.0/libs/".

(** The double quote. *)
Definition quote : string := String "034" EmptyString.

(** The text the pattern of the [gsub] call matches: a double quote, then
    [ojs-offline-libs/] (its hyphens escaped in the pattern). *)
Definition placeholder : string := quote ++ "ojs-offline-libs/".

(** Transform the dependency map paths *)
Definition transformPaths (dep_map_json : string) : string :=
  gsub dep_map_json placeholder (quote ++ libs_base).

(** What the filter sees of its environment: the output format, the
    project offset, and the files [io.open] can read. *)
Record quarto := {
  is_html : bool;
  project_offset : option string;
  read : string -> option string
}.

(** The JSON text read for the map (["{}"] when the file cannot be opened),
    and whether the warning is logged. *)
Definition readMap (q : quarto) : string * bool :=
  match read q (map_path (project_offset q)) with
  | Some content => (content, false)
  | None => ("{}", true)
  end.

(** The text spliced into the inline script as [depMap], or [None] when the
    format is not HTML and the filter returns [meta] untouched. *)
Definition depMapText (q : quarto) : option string :=
  if is_html q then Some (transformPaths (fst (readMap q))) else None.

(** *** The earlier filter of the file (detection of OJS content) *)


(** [el.classes:includes(c)] *)
Definition includes (classes : list string) (c : string) : bool :=
  existsb (String.eqb c) classes.








End Filter.

Import Js Regex Syntax Scenario.

(** * Properties *)

(** Case analysis on every lookup of a chain of strategies. *)
Ltac first_hit :=
  repeat match goal with
         | |- context [match ?x with Some _ => _ | None => _ end] =>
             destruct x; try reflexivity
         end.

(** ** Strings *)

Lemma append_assoc' a b c : (a ++ b) ++ c = a ++ (b ++ c).
Proof. induction a; cbn; congruence. Qed.

Lemma append_empty a : a ++ "" = a.
Proof. induction a; cbn; congruence. Qed.

Lemma length_append a b :
  String.length (a ++ b) = String.length a + String.length b.
Proof. induction a; cbn; congruence. Qed.

Lemma take_append a b : take (String.length a) (a ++ b) = a.
Proof. induction a; cbn; [now destruct b|congruence]. Qed.

Lemma slice_append a b : slice (String.length a) (a ++ b) = b.
Proof. induction a; cbn; [now destruct b|assumption]. Qed.

Lemma slice_past a c b : slice (String.length a + 1) (a ++ String c b) = b.
Proof. induction a; cbn; [now destruct b|assumption]. Qed.

Lemma span_app p s : fst (span p s) ++ snd (span p s) = s.
Proof.
  induction s as [|c s IH]; cbn; [reflexivity|].
  destruct (p c); [|reflexivity].
  destruct (span p s) as [a b]; cbn in *. now rewrite IH.
Qed.

Lemma span_all p s : all p (fst (span p s)) = true.
Proof.
  induction s as [|c s IH]; cbn; [reflexivity|].
  destruct (p c) eqn:E; [|reflexivity].
  destruct (span p s) as [a b]; cbn in *. now rewrite E.
Qed.

Lemma span_stop p s c t : snd (span p s) = String c t -> p c = false.
Proof.
  induction s as [|c' s IH]; cbn; [discriminate|].
  destruct (p c') eqn:E.
  - destruct (span p s) as [a b]; cbn in *. exact IH.
  - intros H; injection H as -> _. exact E.
Qed.

Lemma span_empty p s : fst (span p s) = EmptyString -> snd (span p s) = s.
Proof.
  destruct s as [|c s]; cbn; [reflexivity|].
  destruct (p c); [|reflexivity].
  destruct (span p s); discriminate.
Qed.

Lemma span_head p s c a :
  fst (span p s) = String c a -> exists t, s = String c t /\ p c = true.
Proof.
  destruct s as [|c' s]; cbn; [discriminate|].
  destruct (p c') eqn:E; [|discriminate].
  destruct (span p s); cbn. intros H; injection H as -> _. eauto.
Qed.

Lemma span_exact p a b :
  all p a = true ->
  match b with String c _ => p c = false | EmptyString => True end ->
  span p (a ++ b) = (a, b).
Proof.
  intros Ha Hb. induction a as [|c a IH]; cbn in *.
  - destruct b as [|c b]; cbn; [reflexivity|]. now rewrite Hb.
  - apply andb_true_iff in Ha as [Hc Ha]. rewrite Hc, (IH Ha). reflexivity.
Qed.

Lemma lacks_append c a b : lacks c (a ++ b) = lacks c a && lacks c b.
Proof.
  unfold lacks. induction a as [|x a IH]; cbn; [reflexivity|].
  now rewrite IH, andb_assoc.
Qed.

Lemma lastIndexOf_lacks c s : lacks c s = true -> lastIndexOf c s = None.
Proof.
  induction s as [|x s IH]; cbn; [reflexivity|].
  intros H. apply andb_true_iff in H as [Hx Hs].
  rewrite (IH Hs). now apply negb_true_iff in Hx as ->.
Qed.

Lemma lastIndexOf_append c a t :
  lacks c t = true ->
  lastIndexOf c (a ++ String c t) = Some (String.length a).
Proof.
  intros Ht. induction a as [|x a IH]; cbn.
  - rewrite (lastIndexOf_lacks _ _ Ht), Ascii.eqb_refl. reflexivity.
  - now rewrite IH.
Qed.

Lemma first_split_cons c x s :
  Ascii.eqb x c = false ->
  Interceptor.first (split c (String x s))
  = String x (Interceptor.first (split c s)).
Proof. intros H. cbn. rewrite H. now destruct (split c s). Qed.

Lemma first_split_lacks c a :
  lacks c a = true -> Interceptor.first (split c a) = a.
Proof.
  induction a as [|x a IH]; [reflexivity|]. intros H.
  cbn in H. apply andb_true_iff in H as [Hx Ha]. apply negb_true_iff in Hx.
  rewrite first_split_cons by assumption. now rewrite IH.
Qed.

Lemma first_split_append c a b :
  lacks c a = true -> Interceptor.first (split c (a ++ String c b)) = a.
Proof.
  induction a as [|x a IH]; intros H.
  - cbn. now rewrite Ascii.eqb_refl.
  - cbn in H. apply andb_true_iff in H as [Hx Ha]. apply negb_true_iff in Hx.
    cbn [append]. rewrite first_split_cons by assumption. now rewrite IH.
Qed.

Lemma inherited_lacks_at k : inherited k = true -> lacks "@" k = true.
Proof.
  unfold inherited. cbn. intros H.
  repeat (apply orb_true_iff in H as [H|H];
          [apply String.eqb_eq in H; subst k; reflexivity|]).
  discriminate.
Qed.

Lemma versioned_key_not_inherited n r : inherited (n ++ "@" ++ r) = false.
Proof.
  destruct (inherited (n ++ "@" ++ r)) eqn:E; [|reflexivity].
  apply inherited_lacks_at in E. rewrite lacks_append in E.
  apply andb_true_iff in E as [_ E]. discriminate.
Qed.

(** ** The regex engine on the two patterns of the parser *)

Lemma consumed_append a b : consumed (a ++ b) b = a.
Proof.
  unfold consumed. rewrite length_append.
  replace (String.length a + String.length b - String.length b)
    with (String.length a) by lia.
  apply take_append.
Qed.

Lemma consumed_span p s : consumed s (snd (span p s)) = fst (span p s).
Proof. rewrite <- (span_app p s) at 1. apply consumed_append. Qed.

(** Greedy repetition followed by something that cannot start with a
    character of the class: backtracking never helps, the longest run is
    the only candidate. *)
Lemma plus_forced l s cs (kont : cont) :
  (forall c t cs', noneOf l c = true -> kont (String c t) cs' = None) ->
  plus (NoneOf l) s cs kont =
    match fst (span (noneOf l) s) with
    | EmptyString => None
    | String _ _ => kont (snd (span (noneOf l) s)) cs
    end.
Proof.
  intros Hk. induction s as [|c s IH]; cbn; [reflexivity|].
  destruct (noneOf l c) eqn:E; [|reflexivity].
  rewrite IH. pose proof (span_empty (noneOf l) s) as He.
  pose proof (span_head (noneOf l) s) as Hh.
  destruct (span (noneOf l) s) as [a b]; cbn in *.
  destruct a as [|c' a].
  - now rewrite He.
  - destruct (kont b cs) eqn:Ek; [reflexivity|].
    destruct (Hh c' a eq_refl) as (t & -> & Hc). now apply Hk.
Qed.

(** Greedy repetition followed by something that always matches: the
    longest run is taken. *)
Lemma plus_greedy l s cs (kont : cont) :
  (forall t cs', kont t cs' <> None) ->
  plus (NoneOf l) s cs kont =
    match fst (span (noneOf l) s) with
    | EmptyString => None
    | String _ _ => kont (snd (span (noneOf l) s)) cs
    end.
Proof.
  intros Hk. induction s as [|c s IH]; cbn; [reflexivity|].
  destruct (noneOf l c) eqn:E; [|reflexivity].
  rewrite IH. pose proof (span_empty (noneOf l) s) as He.
  destruct (span (noneOf l) s) as [a b]; cbn in *.
  destruct a as [|c' a].
  - now rewrite He.
  - destruct (kont b cs) eqn:Ek; [reflexivity|]. now apply Hk in Ek.
Qed.

(** Greedy repetition followed by something that matches at the end of
    the input only: the whole rest must be in the class. *)
Lemma plus_to_end k s cs (kont : cont) :
  (forall c t cs', kont (String c t) cs' = None) ->
  plus k s cs kont = if truthyStr s && allIn k s then kont "" cs else None.
Proof.
  intros Hk. induction s as [|c s IH]; cbn; [reflexivity|].
  destruct (inCls k c s) eqn:E; [|reflexivity].
  rewrite IH. destruct s as [|c' s]; [reflexivity|].
  cbn [truthyStr andb]. destruct (allIn k (String c' s)).
  - now destruct (kont "" cs).
  - apply Hk.
Qed.

Lemma consumed_all p : consumed p "" = p.
Proof. rewrite <- (append_empty p) at 1. apply consumed_append. Qed.

Lemma includes_cons c s pat :
  includes (String c s) pat = startsWith (String c s) pat || includes s pat.
Proof. reflexivity. Qed.

(** The dot accepts every position of a text exactly when the text holds
    no line terminator. *)
Lemma allIn_dot s : allIn Dot s = singleLine s.
Proof.
  unfold singleLine. induction s as [|c s IH]; [reflexivity|].
  cbn [allIn]. rewrite IH. unfold inCls, lineTerminator.
  rewrite !includes_cons. unfold lacks. cbn [all].
  change (startsWith (String c s) LF) with (Ascii.eqb c "010" && true).
  change (startsWith (String c s) CR) with (Ascii.eqb c "013" && true).
  rewrite !andb_true_r.
  destruct (Ascii.eqb c "010"), (Ascii.eqb c "013"),
    (startsWith (String c s) LINE_SEPARATOR),
    (startsWith (String c s) PARAGRAPH_SEPARATOR),
    (all (fun x => negb (Ascii.eqb x "010")) s),
    (all (fun x => negb (Ascii.eqb x "013")) s),
    (includes s LINE_SEPARATOR), (includes s PARAGRAPH_SEPARATOR);
    reflexivity.
Qed.

Lemma run_tail r cs :
  run tailRe r cs (fun _ cs' => Some cs')
  = option_map (tailCaps cs) (versionOf r).
Proof.
  unfold tailRe. cbn [cat run].
  rewrite plus_forced.
  - unfold versionOf, notSlash.
    pose proof (consumed_span (noneOf ["/"%char]) r) as Hc.
    pose proof (span_stop (noneOf ["/"%char]) r) as Hs.
    destruct (span (noneOf ["/"%char]) r) as [v t]; cbn [fst snd] in *.
    destruct v as [|c v]; [reflexivity|].
    rewrite Hc. destruct t as [|c' p]; [reflexivity|].
    cbn [subpathOf].
    specialize (Hs c' p eq_refl). unfold noneOf in Hs. cbn in Hs.
    destruct (Ascii.eqb c' "/") eqn:E; [|discriminate].
    rewrite plus_to_end by (intros; reflexivity).
    rewrite allIn_dot, consumed_all.
    destruct (truthyStr p && singleLine p); reflexivity.
  - intros c t cs' Hc. unfold noneOf in Hc. cbn in Hc.
    destruct (Ascii.eqb c "/") eqn:E; [discriminate|].
    cbn. rewrite ?E. reflexivity.
Qed.

Lemma exec_regular s :
  exec Resolver.regularRe s = option_map capsOf (regularParts s).
Proof.
  unfold exec, Resolver.regularRe. cbn [cat run].
  rewrite plus_forced.
  - unfold regularParts, notAt.
    pose proof (consumed_span (noneOf ["@"%char]) s) as Hc.
    destruct (span (noneOf ["@"%char]) s) as [n t]; cbn [fst snd] in *.
    destruct n as [|c n]; [reflexivity|].
    destruct t as [|c' r]; [reflexivity|].
    destruct (Ascii.eqb c' "@") eqn:E; [|reflexivity].
    rewrite Hc.
    change (run tailRe r [(1, String c n)] (fun _ cs' => Some cs')
            = option_map capsOf
                match versionOf r with
                | Some vp => Some (String c n, vp)
                | None => None
                end).
    rewrite run_tail. destruct (versionOf r); reflexivity.
  - intros c t cs' Hc. unfold noneOf in Hc. cbn in Hc.
    destruct (Ascii.eqb c "@") eqn:E; [discriminate|].
    cbn. rewrite ?E. reflexivity.
Qed.

Lemma exec_scoped s :
  exec Resolver.scopedRe s = option_map capsOf (scopedParts s).
Proof.
  unfold exec, Resolver.scopedRe. cbn [cat run].
  destruct s as [|c s1]; [reflexivity|]. cbn [scopedParts].
  destruct (Ascii.eqb c "@") eqn:E0; [|reflexivity].
  apply Ascii.eqb_eq in E0. subst c.
  rewrite plus_forced.
  2:{ intros c t cs' Hc. unfold noneOf in Hc. cbn in Hc.
      destruct (Ascii.eqb c "/") eqn:E; [discriminate|].
      cbn. rewrite ?E. reflexivity. }
  unfold notSlash.
  pose proof (span_app (noneOf ["/"%char]) s1) as Ha1.
  destruct (span (noneOf ["/"%char]) s1) as [scope t1]; cbn [fst snd] in *.
  destruct scope as [|c1 scope]; [reflexivity|].
  destruct t1 as [|c2 s2]; [reflexivity|].
  destruct (Ascii.eqb c2 "/") eqn:E2; [|reflexivity].
  apply Ascii.eqb_eq in E2. subst c2.
  rewrite plus_forced.
  2:{ intros c t cs' Hc. unfold noneOf in Hc. cbn in Hc.
      destruct (Ascii.eqb c "@") eqn:E; [discriminate|].
      cbn. rewrite ?E. reflexivity. }
  unfold notAt.
  pose proof (span_app (noneOf ["@"%char]) s2) as Ha2.
  destruct (span (noneOf ["@"%char]) s2) as [n t2]; cbn [fst snd] in *.
  destruct n as [|c3 n]; [reflexivity|].
  destruct t2 as [|c4 r]; [reflexivity|].
  destruct (Ascii.eqb c4 "@") eqn:E4; [|reflexivity].
  replace (consumed (String "@" s1) (String c4 r))
    with ("@" ++ String c1 scope ++ "/" ++ String c3 n).
  2:{ subst s1 s2. symmetry.
      replace (String "@" (String c1 scope ++ String "/" (String c3 n ++ String c4 r)))
        with (("@" ++ String c1 scope ++ "/" ++ String c3 n) ++ String c4 r).
      - apply consumed_append.
      - cbn. now rewrite append_assoc'. }
  change (run tailRe r [(1, "@" ++ String c1 scope ++ "/" ++ String c3 n)]
            (fun _ cs' => Some cs')
          = option_map capsOf
              match versionOf r with
              | Some vp => Some ("@" ++ String c1 scope ++ "/" ++ String c3 n, vp)
              | None => None
              end).
  rewrite run_tail. destruct (versionOf r); reflexivity.
Qed.

(** ** The parser, without the engine *)

Lemma versionOf_sound r v op :
  versionOf r = Some (v, op) ->
  r = v ++ subpathText op /\ truthyStr v = true
  /\ match op with Some q => truthyStr q = true | None => True end.
Proof.
  unfold versionOf.
  pose proof (span_app notSlash r) as Ha.
  destruct (span notSlash r) as [v' t]; cbn [fst snd] in *.
  destruct v' as [|c v']; [discriminate|].
  destruct t as [|c' p]; cbn.
  - intros H. injection H as <- <-. cbn. repeat split. now rewrite <- Ha.
  - destruct (Ascii.eqb c' "/") eqn:E; [|discriminate].
    apply Ascii.eqb_eq in E. subst c'.
    destruct (truthyStr p) eqn:Hp; [|discriminate].
    destruct (singleLine p); [|discriminate].
    intros H. injection H as <- <-. cbn. repeat split; [|exact Hp].
    now rewrite <- Ha.
Qed.

Lemma regularParts_sound s n v op :
  regularParts s = Some (n, (v, op)) ->
  s = n ++ "@" ++ v ++ subpathText op /\ truthyStr n = true
  /\ truthyStr v = true
  /\ match op with Some q => truthyStr q = true | None => True end.
Proof.
  unfold regularParts.
  pose proof (span_app notAt s) as Ha.
  destruct (span notAt s) as [n' t]; cbn [fst snd] in *.
  destruct n' as [|c n']; [discriminate|]. destruct t as [|c' r]; [discriminate|].
  destruct (Ascii.eqb c' "@") eqn:E; [|discriminate].
  apply Ascii.eqb_eq in E. subst c'.
  destruct (versionOf r) as [[v' op']|] eqn:Ev; [|discriminate].
  intros H. injection H as <- <- <-.
  destruct (versionOf_sound _ _ _ Ev) as (-> & Hv & Hq).
  repeat split; auto.
Qed.

Lemma scopedParts_sound s n v op :
  scopedParts s = Some (n, (v, op)) ->
  s = n ++ "@" ++ v ++ subpathText op /\ truthyStr n = true
  /\ truthyStr v = true
  /\ match op with Some q => truthyStr q = true | None => True end.
Proof.
  unfold scopedParts. destruct s as [|c s1]; [discriminate|].
  destruct (Ascii.eqb c "@") eqn:E0; [|discriminate].
  apply Ascii.eqb_eq in E0. subst c.
  pose proof (span_app notSlash s1) as Ha.
  destruct (span notSlash s1) as [scope t]; cbn [fst snd] in *.
  destruct scope as [|c1 scope]; [discriminate|].
  destruct t as [|c2 s2]; [discriminate|].
  destruct (Ascii.eqb c2 "/") eqn:E2; [|discriminate].
  apply Ascii.eqb_eq in E2. subst c2.
  pose proof (span_app notAt s2) as Ha2.
  destruct (span notAt s2) as [n' t2]; cbn [fst snd] in *.
  destruct n' as [|c3 n']; [discriminate|]. destruct t2 as [|c4 r]; [discriminate|].
  destruct (Ascii.eqb c4 "@") eqn:E4; [|discriminate].
  apply Ascii.eqb_eq in E4. subst c4.
  destruct (versionOf r) as [[v' op']|] eqn:Ev; [|discriminate].
  intros H. injection H as <- <- <-.
  destruct (versionOf_sound _ _ _ Ev) as (-> & Hv & Hq).
  repeat split; auto.
  subst s1 s2. cbn. f_equal. f_equal. rewrite !append_assoc'. reflexivity.
Qed.

Lemma parts_sound s n v op :
  parts s = Some (n, (v, op)) ->
  s = n ++ "@" ++ v ++ subpathText op /\ truthyStr n = true
  /\ truthyStr v = true
  /\ match op with Some q => truthyStr q = true | None => True end.
Proof.
  unfold parts. destruct (scopedParts s) as [x|] eqn:E.
  - intros H. injection H as ->. now apply scopedParts_sound.
  - apply regularParts_sound.
Qed.

(** The recognizers accept exactly the strings of the two shapes. *)
Lemma versionOf_shape r : versionOf r <> None <-> versionShape r.
Proof.
  unfold versionShape. split.
  - unfold versionOf.
    pose proof (span_app notSlash r) as Ha.
    pose proof (span_all notSlash r) as Hl.
    destruct (span notSlash r) as [v t]; cbn [fst snd] in *.
    destruct v as [|c v]; [congruence|].
    intros H. exists (String c v), t. repeat split; auto; [discriminate|].
    unfold subpathShape. destruct t as [|c' p]; [now left|right].
    cbn in H. destruct (Ascii.eqb c' "/") eqn:E; [|congruence].
    apply Ascii.eqb_eq in E. subst c'.
    destruct (truthyStr p) eqn:Hp; [|cbn in H; congruence].
    destruct (singleLine p) eqn:Hq; [|cbn in H; congruence].
    exists p. repeat split; [|exact Hq]. now destruct p.
  - intros (v & p & -> & Hv & Hl & Hp). unfold versionOf.
    assert (Hs : span notSlash (v ++ p) = (v, p)).
    { apply span_exact; [exact Hl|].
      destruct Hp as [->|(q & -> & _)]; [exact I|reflexivity]. }
    rewrite Hs. destruct v as [|c v]; [congruence|].
    destruct Hp as [->|(q & -> & Hq & Hd)]; [discriminate|].
    cbn. rewrite Hd. destruct q; [congruence|discriminate].
Qed.

Lemma unscopedForm_shape s : unscopedForm s = true <-> unscopedShape s.
Proof.
  unfold unscopedForm, regularParts, unscopedShape. split.
  - pose proof (span_app notAt s) as Ha.
    pose proof (span_all notAt s) as Hl.
    destruct (span notAt s) as [n t]; cbn [fst snd] in *.
    destruct n as [|c n]; [discriminate|]. destruct t as [|c' r]; [discriminate|].
    destruct (Ascii.eqb c' "@") eqn:E; [|discriminate].
    apply Ascii.eqb_eq in E. subst c'. intros H.
    exists (String c n), r. repeat split; auto; [discriminate|].
    apply versionOf_shape. destruct (versionOf r); congruence.
  - intros (n & r & -> & Hn & Hl & Hr).
    rewrite span_exact by (assumption || reflexivity).
    destruct n as [|c n]; [congruence|].
    cbn. apply versionOf_shape in Hr. destruct (versionOf r); congruence.
Qed.

Lemma scopedForm_shape s : scopedForm s = true <-> scopedShape s.
Proof.
  unfold scopedForm, scopedParts, scopedShape. split.
  - destruct s as [|c s1]; [discriminate|].
    destruct (Ascii.eqb c "@") eqn:E0; [|discriminate].
    apply Ascii.eqb_eq in E0. subst c.
    pose proof (span_app notSlash s1) as Ha.
    pose proof (span_all notSlash s1) as Hl.
    destruct (span notSlash s1) as [scope t]; cbn [fst snd] in *.
    destruct scope as [|c1 scope]; [discriminate|].
    destruct t as [|c2 s2]; [discriminate|].
    destruct (Ascii.eqb c2 "/") eqn:E2; [|discriminate].
    apply Ascii.eqb_eq in E2. subst c2.
    pose proof (span_app notAt s2) as Ha2.
    pose proof (span_all notAt s2) as Hl2.
    destruct (span notAt s2) as [n t2]; cbn [fst snd] in *.
    destruct n as [|c3 n]; [discriminate|]. destruct t2 as [|c4 r]; [discriminate|].
    destruct (Ascii.eqb c4 "@") eqn:E4; [|discriminate].
    apply Ascii.eqb_eq in E4. subst c4. intros H.
    exists (String c1 scope), (String c3 n), r.
    repeat split; auto; try discriminate.
    + subst s1 s2. reflexivity.
    + apply versionOf_shape. destruct (versionOf r); congruence.
  - intros (scope & n & r & -> & Hs & Hsl & Hn & Hnl & Hr).
    cbn. rewrite span_exact by (assumption || reflexivity).
    destruct scope as [|c1 scope]; [congruence|]. cbn.
    rewrite span_exact by (assumption || reflexivity).
    destruct n as [|c3 n]; [congruence|]. cbn.
    apply versionOf_shape in Hr. destruct (versionOf r); congruence.
Qed.

Lemma ofMatch_capsOf n v op :
  Resolver.ofMatch (capsOf (n, (v, op)))
  = {| Resolver.name := n; Resolver.version := Some v;
       Resolver.path := Resolver.orEmpty op |}.
Proof. destruct op; reflexivity. Qed.

(** [parsePackageIdentifier] computes the parts of the first form that
    applies, or the bare-name record. *)
Lemma parse_parts s :
  Resolver.parsePackageIdentifier s =
    match parts s with
    | Some (n, (v, op)) =>
        {| Resolver.name := n; Resolver.version := Some v;
           Resolver.path := Resolver.orEmpty op |}
    | None => bare s
    end.
Proof.
  unfold Resolver.parsePackageIdentifier, parts.
  rewrite exec_scoped, exec_regular.
  destruct (scopedParts s) as [[n [v op]]|]; cbn [option_map].
  - apply ofMatch_capsOf.
  - destruct (regularParts s) as [[n [v op]]|]; cbn [option_map];
      [apply ofMatch_capsOf|reflexivity].
Qed.

(** The canonical string rebuilt from a parsed specifier is the specifier. *)
Lemma canonical_roundtrip s k :
  Spec.canonical (Resolver.parsePackageIdentifier s) = Some k -> k = s.
Proof.
  rewrite parse_parts. destruct (parts s) as [[n [v op]]|] eqn:E; [|discriminate].
  destruct (parts_sound _ _ _ _ E) as (-> & _ & _ & Hq).
  unfold Spec.canonical. cbn. intros H. injection H as <-.
  destruct op as [q|]; cbn; [now rewrite Hq|reflexivity].
Qed.

(** ** Resolution order *)

Lemma firstHit_None {A : Type} (l : list (option A)) :
  Spec.firstHit l = None <-> Forall (fun o => o = None) l.
Proof.
  induction l as [|o l IH]; cbn.
  - split; [constructor|reflexivity].
  - destruct o as [v|].
    + split; [discriminate|]. intros H. inversion H. discriminate.
    + rewrite IH. split; [now constructor|]. intros H. now inversion H.
Qed.

Lemma scan_find p o all :
  scan p o all =
    match find (fun kv => p (fst kv)) o with
    | Some kv => get all (fst kv)
    | None => None
    end.
Proof.
  induction o as [|[k v] o IH]; cbn; [reflexivity|].
  destruct (p k); [reflexivity|exact IH].
Qed.

Lemma standalone_order depMap specifier :
  Resolver.findLocalPath depMap specifier
  = Spec.firstHit (Strategies.standalone depMap specifier).
Proof.
  unfold Resolver.findLocalPath, Strategies.standalone, Strategies.anyKey.
  rewrite scan_find, parse_parts.
  destruct (parts specifier) as [[n [v op]]|] eqn:E.
  - destruct (parts_sound _ _ _ _ E) as (_ & _ & Hv & _).
    cbn. rewrite Hv. cbn. first_hit.
  - cbn. first_hit.
Qed.

Lemma inline_order aliases depMap specifier :
  Interceptor.findLocalPathWith aliases depMap specifier
  = Spec.firstHit (Strategies.inline aliases depMap specifier).
Proof.
  unfold Interceptor.findLocalPathWith, Strategies.inline, Strategies.anyKey.
  rewrite scan_find. cbn [Spec.firstHit]. first_hit.
Qed.

(** C1, as stated, fails: neither resolver follows the five-step order.
    With two versions of d3 in the map, the five steps send [d3@7] through
    the alias table to [d3@7.8.5], while the standalone resolver, which has
    no alias step, returns the first key starting with [d3@].  With two
    versions of lodash, the five steps find [lodash@3.10.1] as the base
    package of [lodash@3.10.1/lodash.min.js], while the inline resolver,
    which has no base-package step, returns the first key starting with
    [lodash@]. *)
Lemma resolve_order_counterexample :
  Spec.resolve Interceptor.versionAliases twoD3 "d3@7"
    = Some "libs/d3@7.8.5/d3.min.js"
  /\ Resolver.findLocalPath twoD3 "d3@7"
    = Some (Str "libs/d3@5.0.0/d3.min.js")
  /\ Spec.resolve Interceptor.versionAliases twoLodash "lodash@3.10.1/lodash.min.js"
    = Some "libs/lodash@3.10.1/lodash.min.js"
  /\ Interceptor.findLocalPath twoLodash "lodash@3.10.1/lodash.min.js"
    = Some (Str "libs/lodash@4.17.21/lodash.min.js").
Proof. repeat split; vm_compute; reflexivity. Qed.

(** The worded steps of the inline resolver are what its blocks compute. *)

Lemma lastIndexOf_aroundLast c s :
  Strategies.aroundLast c s =
    match lastIndexOf c s with
    | Some i => Some (take i s, slice (i + 1) s)
    | None => None
    end.
Proof.
  induction s as [|x s IH]; [reflexivity|].
  cbn [Strategies.aroundLast lastIndexOf]. rewrite IH.
  destruct (lastIndexOf c s) as [i|]; [reflexivity|].
  destruct (Ascii.eqb x c); [|reflexivity]. now destruct s.
Qed.

Lemma lastIndexOf_bound c s i : lastIndexOf c s = Some i -> i < String.length s.
Proof.
  revert i. induction s as [|x s IH]; cbn; [discriminate|]. intros i.
  destruct (lastIndexOf c s) as [j|].
  - intros H. injection H as <-. specialize (IH j eq_refl). lia.
  - destruct (Ascii.eqb x c); [|discriminate]. intros H. injection H as <-. lia.
Qed.

Lemma first_split_before c s : Interceptor.first (split c s) = Spec.before c s.
Proof.
  induction s as [|x s IH]; [reflexivity|]. cbn [Spec.before].
  destruct (Ascii.eqb x c) eqn:E.
  - cbn. now rewrite E.
  - rewrite first_split_cons by assumption. now rewrite IH.
Qed.

Lemma hit_versioned_key o n r :
  hit o (n ++ "@" ++ r) =
    match own o (n ++ "@" ++ r) with
    | Some v => if truthyStr v then Some (Str v) else None
    | None => None
    end.
Proof.
  unfold hit, get. rewrite versioned_key_not_inherited.
  now destruct (own o (n ++ "@" ++ r)).
Qed.

Lemma viaAlias_step aliases depMap specifier :
  Interceptor.viaAlias aliases depMap specifier
  = Strategies.aliasStep aliases depMap specifier.
Proof.
  unfold Interceptor.viaAlias, Strategies.aliasStep.
  rewrite lastIndexOf_aroundLast.
  destruct (lastIndexOf "@" specifier) as [i|] eqn:E; [|reflexivity].
  apply lastIndexOf_bound in E.
  destruct i as [|i]; [now destruct specifier|].
  destruct specifier as [|x s]; [cbn in E; lia|].
  cbn [Nat.ltb Nat.leb take].
  rewrite first_split_before, hit_versioned_key.
  destruct (own aliases _) as [fullKey|]; [|reflexivity].
  now destruct (truthyStr fullKey).
Qed.

Lemma nameChar_class c : Strategies.nameChar c = noneOf ["@"%char; "/"%char] c.
Proof.
  unfold Strategies.nameChar, noneOf. cbn.
  now destruct (Ascii.eqb c "@"), (Ascii.eqb c "/").
Qed.

Lemma span_ext p q s : (forall c, p c = q c) -> span p s = span q s.
Proof.
  intros H. induction s as [|c s IH]; [reflexivity|].
  cbn. now rewrite H, IH.
Qed.

Lemma consumed_prefix x y z : x = y ++ z -> consumed x z = y.
Proof. intros ->. apply consumed_append. Qed.

(** What the pattern of the bare name matches after the optional at sign,
    from the start [s0] of the group. *)
Lemma run_nameRun s0 pre s :
  s0 = pre ++ s ->
  run (Cat (Plus (NoneOf ["@"%char; "/"%char]))
           (Opt (Cat (Chr "/") (Plus (NoneOf ["@"%char; "/"%char])))))
      s []
      (fun s' cs' => Some ((1, consumed s0 s') :: cs'))
  = option_map (fun b => [(1, pre ++ b)]) (Strategies.nameRun s).
Proof.
  intros ->. cbn [run]. rewrite plus_greedy.
  2:{ intros t cs'. cbn [run].
      destruct t as [|c0 t0]; [discriminate|].
      destruct (Ascii.eqb c0 "/"); [|discriminate].
      destruct (plus _ t0 _ _); discriminate. }
  unfold Strategies.nameRun.
  rewrite (span_ext _ _ s nameChar_class).
  pose proof (span_app (noneOf ["@"%char; "/"%char]) s) as Ha.
  destruct (span (noneOf ["@"%char; "/"%char]) s) as [a rest]; cbn [fst snd] in *.
  destruct a as [|c a]; [reflexivity|]. cbn [option_map run].
  unfold Strategies.slashPart.
  destruct rest as [|c' t].
  - rewrite (consumed_prefix _ (pre ++ String c a ++ "") "");
      [reflexivity|]. rewrite <- Ha, !append_empty. reflexivity.
  - destruct (Ascii.eqb c' "/") eqn:E.
    + apply Ascii.eqb_eq in E. subst c'.
      rewrite plus_greedy by discriminate.
      rewrite (span_ext _ _ t nameChar_class).
      pose proof (span_app (noneOf ["@"%char; "/"%char]) t) as Hb.
      destruct (span (noneOf ["@"%char; "/"%char]) t) as [b u]; cbn [fst snd] in *.
      destruct b as [|c2 b].
      * rewrite (consumed_prefix _ (pre ++ String c a ++ "") (String "/" t));
          [reflexivity|].
        rewrite <- Ha, append_empty, append_assoc'. reflexivity.
      * rewrite (consumed_prefix _ (pre ++ String c a ++ "/" ++ String c2 b) u);
          [reflexivity|].
        rewrite <- Ha, <- Hb. rewrite !append_assoc'. cbn.
        rewrite ?append_assoc'. reflexivity.
    + rewrite (consumed_prefix _ (pre ++ String c a ++ "") (String c' t));
        [reflexivity|].
      rewrite <- Ha, append_empty, append_assoc'. reflexivity.
Qed.

Lemma exec_bare s :
  exec Interceptor.bareRe s
  = option_map (fun b => [(1, b)]) (Strategies.bareName s).
Proof.
  unfold exec, Interceptor.bareRe. cbn [cat].
  destruct s as [|c t]; [reflexivity|].
  pose proof (run_nameRun (String c t) "" (String c t) eq_refl) as H0.
  pose proof (run_nameRun (String c t) (String c "") t eq_refl) as H1.
  cbn [run]. cbn [Strategies.bareName].
  destruct (Ascii.eqb c "@") eqn:E.
  - match goal with
    | |- match ?X with Some _ => _ | None => ?Y end = _ =>
        assert (HX : X = option_map (fun b => [(1, String c "" ++ b)])
                           (Strategies.nameRun t)) by exact H1;
        assert (HY : Y = option_map (fun b => [(1, "" ++ b)])
                           (Strategies.nameRun (String c t))) by exact H0;
        rewrite HX, HY
    end.
    destruct (Strategies.nameRun t); [reflexivity|].
    unfold Strategies.nameRun. cbn [span]. unfold Strategies.nameChar.
    now rewrite E.
  - match goal with
    | |- ?Y = _ =>
        assert (HY : Y = option_map (fun b => [(1, "" ++ b)])
                           (Strategies.nameRun (String c t))) by exact H0;
        rewrite HY
    end.
    destruct (Strategies.nameRun (String c t)); reflexivity.
Qed.

Lemma viaBareName_step depMap specifier :
  Interceptor.viaBareName depMap specifier
  = Strategies.bareNameStep depMap specifier.
Proof.
  unfold Interceptor.viaBareName, Strategies.bareNameStep.
  rewrite exec_bare. destruct (Strategies.bareName specifier); reflexivity.
Qed.

Lemma pkgNameOf_packageName specifier :
  Interceptor.pkgNameOf specifier = Strategies.packageName specifier.
Proof.
  unfold Interceptor.pkgNameOf, Strategies.packageName.
  rewrite !first_split_before. now destruct (Spec.before "@" specifier).
Qed.

Lemma inline_steps aliases depMap specifier :
  Strategies.inline aliases depMap specifier
  = Strategies.inlineSteps aliases depMap specifier.
Proof.
  unfold Strategies.inline, Strategies.inlineSteps.
  now rewrite viaAlias_step, viaBareName_step, pkgNameOf_packageName.
Qed.

Lemma standalone_steps depMap specifier :
  Strategies.standalone depMap specifier
  = Strategies.standaloneSteps depMap specifier.
Proof.
  unfold Strategies.standalone, Strategies.standaloneSteps.
  rewrite parse_parts.
  destruct (parts specifier) as [[n [v op]]|] eqn:E; [|reflexivity].
  destruct (parts_sound _ _ _ _ E) as (_ & _ & _ & Hq).
  unfold Spec.canonical, Spec.basePackage. cbn.
  destruct op as [q|]; cbn; [now rewrite Hq|now rewrite append_empty].
Qed.

(** C1, amended: each resolver returns the first hit of its own four
    steps, in order, and null exactly when all four fail.  The standalone
    resolver tries the exact key, the canonical reconstruction
    [name@version[/subpath]] (which is the specifier again), the base
    package [name@version] (the bare name without a version) and the first
    key starting with [name@].  The inline resolver tries the exact key;
    the alias of [name@major], name and version being the text around the
    last at sign of the specifier and the major version the text before
    the first dot, and then the aliased key in the map; the bare package
    name as a key; and the first key that starts with [pkgName@] or is
    [pkgName], the text before the first at sign (before the first slash
    when the specifier begins with an at sign). *)
Theorem findLocalPath_first_hit (depMap : object) (specifier : string) :
  Resolver.findLocalPath depMap specifier
    = Spec.firstHit (Strategies.standaloneSteps depMap specifier)
  /\ (Resolver.findLocalPath depMap specifier = None
      <-> Forall (fun o => o = None) (Strategies.standaloneSteps depMap specifier))
  /\ (forall k, Spec.canonical (Resolver.parsePackageIdentifier specifier) = Some k
                -> k = specifier)
  /\ Interceptor.findLocalPath depMap specifier
    = Spec.firstHit (Strategies.inlineSteps Interceptor.versionAliases depMap specifier)
  /\ (Interceptor.findLocalPath depMap specifier = None
      <-> Forall (fun o => o = None)
            (Strategies.inlineSteps Interceptor.versionAliases depMap specifier)).
Proof.
  unfold Interceptor.findLocalPath.
  rewrite standalone_order, inline_order, !firstHit_None.
  rewrite standalone_steps, inline_steps.
  repeat split; auto. apply canonical_roundtrip.
Qed.

(** ** The alias step of the inline resolver *)

Lemma hit_own o k v :
  own o k = Some v -> truthyStr v = true -> hit o k = Some (Str v).
Proof. intros H T. unfold hit, get. rewrite H. cbn. now rewrite T. Qed.

Lemma truthyStr_nonempty v : v <> "" -> truthyStr v = true.
Proof. now destruct v. Qed.

(** The alias block on [name@major] followed by a suffix that is empty or
    starts with a dot and holds no further at sign. *)
Lemma viaAlias_hit aliases depMap nm major suffix fullKey v :
  nm <> "" ->
  lacks "@" major = true -> lacks "." major = true ->
  (suffix = "" \/ exists rest, suffix = "." ++ rest /\ lacks "@" rest = true) ->
  own aliases (nm ++ "@" ++ major) = Some fullKey -> truthyStr fullKey = true ->
  own depMap fullKey = Some v -> truthyStr v = true ->
  Interceptor.viaAlias aliases depMap (nm ++ "@" ++ major ++ suffix)
  = Some (Str v).
Proof.
  intros Hn Ha Hd Hs Hal Hfk Hv Htv. unfold Interceptor.viaAlias.
  assert (Hl : lacks "@" (major ++ suffix) = true).
  { rewrite lacks_append, Ha.
    destruct Hs as [->|(rest & -> & Hr)]; [reflexivity|]. cbn. exact Hr. }
  change (nm ++ "@" ++ major ++ suffix) with (nm ++ String "@" (major ++ suffix)).
  rewrite (lastIndexOf_append _ _ _ Hl).
  destruct nm as [|c nm]; [congruence|].
  cbn [String.length Nat.ltb Nat.leb].
  change (S (String.length nm)) with (String.length (String c nm)).
  rewrite take_append, slice_past.
  assert (Hm : Interceptor.first (split "." (major ++ suffix)) = major).
  { destruct Hs as [->|(rest & -> & Hr)].
    - rewrite append_empty. now apply first_split_lacks.
    - now apply first_split_append. }
  rewrite Hm, (hit_own _ _ _ Hal Hfk). now apply hit_own.
Qed.

(** Every entry of [versionAliases] has the form [name@major] with a
    non-empty name, a major version free of dots and at signs, and a
    non-empty target. *)
Lemma versionAliases_entries aliasKey fullKey :
  In (aliasKey, fullKey) Interceptor.versionAliases ->
  exists nm major,
    aliasKey = nm ++ "@" ++ major /\ nm <> ""
    /\ lacks "@" major = true /\ lacks "." major = true
    /\ own Interceptor.versionAliases aliasKey = Some fullKey
    /\ truthyStr fullKey = true.
Proof.
  cbn. intros H.
  repeat (destruct H as [H|H]; [injection H as <- <-|]); [..|contradiction].
  1: exists "d3", "7".
  2: exists "d3", "6".
  3: exists "lodash", "4".
  4: exists "htl", "0".
  5: exists "@observablehq/inputs", "0".
  6: exists "@observablehq/plot", "0".
  7: exists "vega", "5".
  8: exists "vega-lite", "5".
  all: repeat split; (reflexivity || discriminate).
Qed.

(** The inline resolver on an alias key followed by such a suffix, when the
    exact lookup misses. *)
Lemma alias_step depMap aliasKey fullKey v suffix :
  In (aliasKey, fullKey) Interceptor.versionAliases ->
  own depMap fullKey = Some v -> v <> "" ->
  (suffix = "" \/ exists rest, suffix = "." ++ rest /\ lacks "@" rest = true) ->
  hit depMap (aliasKey ++ suffix) = None ->
  Interceptor.findLocalPath depMap (aliasKey ++ suffix) = Some (Str v).
Proof.
  intros Hin Hv Hne Hs Hmiss.
  destruct (versionAliases_entries _ _ Hin) as (nm & major & -> & Hn & Ha & Hd & Hal & Hfk).
  unfold Interceptor.findLocalPath, Interceptor.findLocalPathWith.
  rewrite Hmiss. rewrite !append_assoc'.
  change (nm ++ ("@" ++ major) ++ suffix) with (nm ++ "@" ++ major ++ suffix).
  now rewrite (viaAlias_hit _ depMap nm major suffix fullKey v)
    by auto using truthyStr_nonempty.
Qed.

(** C2, as stated, fails: the exact key comes first.  With [d3@7.1.0] in the
    map next to the alias target [d3@7.8.5], the inline resolver returns the
    entry of [d3@7.1.0] for the specifier [d3@7.1.0]. *)
Lemma alias_counterexample :
  In ("d3@7", "d3@7.8.5") Interceptor.versionAliases
  /\ own exactAndAlias "d3@7.8.5"
     = Some "libs/d3@7.8.5/d3.min.js"
  /\ Interceptor.findLocalPath
       exactAndAlias "d3@7.1.0"
     = Some (Str "libs/d3@7.1.0/d3.min.js")
  /\ Str "libs/d3@7.1.0/d3.min.js" <> Str "libs/d3@7.8.5/d3.min.js".
Proof. repeat split; [cbn; auto|discriminate]. Qed.

(** C2, amended: for every entry [aliasKey -> fullKey] of [versionAliases]
    whose [fullKey] has a non-empty value [v] in the map, the inline
    resolver returns [v] for the specifier [aliasKey] and for [aliasKey]
    followed by a dot and any minor/patch text without an at sign, provided
    the specifier itself has no truthy entry in the map. *)
Theorem alias_resolves_to_full_key depMap aliasKey fullKey v specifier :
  In (aliasKey, fullKey) Interceptor.versionAliases ->
  own depMap fullKey = Some v -> v <> "" ->
  (specifier = aliasKey
   \/ exists minorPatch,
        lacks "@" minorPatch = true /\ specifier = aliasKey ++ "." ++ minorPatch) ->
  hit depMap specifier = None ->
  Interceptor.findLocalPath depMap specifier = Some (Str v).
Proof.
  intros Hin Hv Hne [->|(rest & Hr & ->)] Hmiss.
  - rewrite <- (append_empty aliasKey) in Hmiss |- *.
    apply (alias_step _ _ fullKey); auto.
  - apply (alias_step _ _ fullKey); eauto.
Qed.

(** The scenario of the specification: [resolve("d3@7")] over the map
    [{"d3@7.8.5": "libs/d3@7.8.5/d3.min.js"}]. *)
Lemma alias_resolves_to_full_key_witness :
  In ("d3@7", "d3@7.8.5") Interceptor.versionAliases
  /\ Interceptor.findLocalPath d3Only "d3@7"
     = Some (Str "libs/d3@7.8.5/d3.min.js").
Proof.
  split; [cbn; auto|].
  apply (alias_resolves_to_full_key
           d3Only "d3@7" "d3@7.8.5").
  - cbn; auto.
  - reflexivity.
  - discriminate.
  - left; reflexivity.
  - reflexivity.
Defined.

(** C10, as stated, fails: when the specifier with its subpath is itself a
    key of the map, the exact lookup returns the subpath-specific file before
    the alias step is reached. *)
Lemma alias_subpath_counterexample :
  In ("d3@7", "d3@7.8.5") Interceptor.versionAliases
  /\ own subpathAndAlias "d3@7.8.5"
     = Some "libs/d3@7.8.5/d3.min.js"
  /\ Interceptor.findLocalPath
       subpathAndAlias "d3@7.1/dist/file.js"
     = Some (Str "libs/d3@7.1/dist/file.js")
  /\ Str "libs/d3@7.1/dist/file.js" <> Str "libs/d3@7.8.5/d3.min.js".
Proof. repeat split; [cbn; auto|discriminate]. Qed.

(** C10, amended: in the inline resolver, for every entry
    [aliasKey -> fullKey] of [versionAliases] whose [fullKey] has a non-empty
    value [v] in the map, and every specifier
    [aliasKey.minorPatch/subpath] without an at sign in [minorPatch] and
    [subpath] that has no truthy entry of its own in the map,
    [findLocalPath] returns [v], the file of the aliased base package,
    whatever the subpath. *)
Theorem alias_discards_subpath depMap aliasKey fullKey v minorPatch subpath :
  In (aliasKey, fullKey) Interceptor.versionAliases ->
  own depMap fullKey = Some v -> v <> "" ->
  lacks "@" minorPatch = true -> lacks "@" subpath = true ->
  hit depMap (aliasKey ++ "." ++ minorPatch ++ "/" ++ subpath) = None ->
  Interceptor.findLocalPath depMap (aliasKey ++ "." ++ minorPatch ++ "/" ++ subpath)
  = Some (Str v).
Proof.
  intros Hin Hv Hne Hm Hsub Hmiss.
  apply (alias_step _ _ fullKey); auto. right.
  exists (minorPatch ++ "/" ++ subpath). split; [reflexivity|].
  rewrite lacks_append, Hm. cbn. exact Hsub.
Qed.

Lemma alias_discards_subpath_witness :
  Interceptor.findLocalPath d3Only
    "d3@7.1/dist/file.js"
  = Some (Str "libs/d3@7.8.5/d3.min.js").
Proof.
  apply (alias_discards_subpath
           d3Only "d3@7" "d3@7.8.5"
           "libs/d3@7.8.5/d3.min.js" "1" "dist/file.js").
  - cbn; auto.
  - reflexivity.
  - discriminate.
  - reflexivity.
  - reflexivity.
  - reflexivity.
Defined.

(** ** The interceptor on URLs outside the CDNs *)

Lemma cdnToLocal_non_cdn depMap url :
  startsWith url Interceptor.CDN_JSDELIVR = false ->
  startsWith url Interceptor.CDN_OBSERVABLE = false ->
  Interceptor.cdnToLocal depMap url = Interceptor.Null.
Proof.
  intros H1 H2. unfold Interceptor.cdnToLocal, Interceptor.stripCdn.
  now rewrite H1, H2.
Qed.

(** What holds of C3: for a URL given as a string that starts with neither
    CDN prefix, the [fetch] override calls [originalFetch] with the input
    and the init it was given (for every kind of input with that URL), and
    both script-element setters call [originalSetAttribute] with the string
    they were given. *)
Lemma non_cdn_strings_pass_through depMap url :
  startsWith url Interceptor.CDN_JSDELIVR = false ->
  startsWith url Interceptor.CDN_OBSERVABLE = false ->
  (forall (Init : Type) (i : Interceptor.input) (init : Init),
      Interceptor.urlOf i = url ->
      Interceptor.fetch depMap i init
      = Interceptor.Delegate (Interceptor.Unchanged i) init)
  /\ (forall tag name,
        Interceptor.setAttributeOn depMap (Interceptor.createElement tag) name
          (Interceptor.AString url)
        = Interceptor.OriginalSetAttribute name (Interceptor.AString url))
  /\ Interceptor.setSrc depMap (Interceptor.AString url)
     = Interceptor.OriginalSetAttribute "src" (Interceptor.AString url).
Proof.
  intros H1 H2. pose proof (cdnToLocal_non_cdn depMap url H1 H2) as Hn.
  repeat split.
  - intros Init i init <-. unfold Interceptor.fetch. now rewrite Hn.
  - intros tag name.
    unfold Interceptor.setAttributeOn, Interceptor.setAttribute,
      Interceptor.rewriteSrc.
    rewrite Hn.
    now destruct (Interceptor.intercepted _), (String.eqb name "src").
  - unfold Interceptor.setSrc, Interceptor.rewriteSrc. now rewrite Hn.
Qed.

(** C3, at a [src] that is not a string: on a script element made by the
    overridden [createElement], assigning to [src] or calling
    [setAttribute('src', ...)] with a value that is not a string (a [URL]
    object, say) whose text starts with neither CDN prefix throws a
    TypeError inside [cdnToLocal], and [originalSetAttribute] is not
    called; the same value given to [fetch] is passed on untouched, since
    that override converts its input with [String(...)] first. *)
Theorem non_cdn_src_object_throws depMap url tag :
  startsWith url Interceptor.CDN_JSDELIVR = false ->
  startsWith url Interceptor.CDN_OBSERVABLE = false ->
  toLowerCase tag = "script" ->
  Interceptor.setSrc depMap (Interceptor.ANotString url) = Interceptor.TypeError
  /\ Interceptor.setAttributeOn depMap (Interceptor.createElement tag) "src"
       (Interceptor.ANotString url)
     = Interceptor.TypeError
  /\ (forall name, name <> "src" ->
        Interceptor.setAttributeOn depMap (Interceptor.createElement tag) name
          (Interceptor.ANotString url)
        = Interceptor.OriginalSetAttribute name (Interceptor.ANotString url))
  /\ (forall (Init : Type) (init : Init),
        Interceptor.fetch depMap (Interceptor.InOther url) init
        = Interceptor.Delegate
            (Interceptor.Unchanged (Interceptor.InOther url)) init).
Proof.
  intros H1 H2 Ht.
  unfold Interceptor.setAttributeOn, Interceptor.createElement,
    Interceptor.setAttribute.
  cbn [Interceptor.intercepted]. rewrite Ht.
  repeat split.
  - intros name Hn. apply String.eqb_neq in Hn. cbn. now rewrite Hn.
  - intros Init init.
    apply (proj1 (non_cdn_strings_pass_through depMap url H1 H2)). reflexivity.
Qed.

Lemma non_cdn_src_object_throws_witness :
  Interceptor.setSrc d3Only (Interceptor.ANotString "https://example.com/other.js")
  = Interceptor.TypeError
  /\ Interceptor.setAttributeOn d3Only (Interceptor.createElement "script") "src"
       (Interceptor.ANotString "https://example.com/other.js")
     = Interceptor.TypeError.
Proof.
  destruct (non_cdn_src_object_throws d3Only "https://example.com/other.js"
              "script" eq_refl eq_refl eq_refl) as (Hs & Ha & _).
  split; [exact Hs|exact Ha].
Defined.

(** ** The synthesized manifest *)

Lemma startsWith_append a b : startsWith (a ++ b) a = true.
Proof.
  induction a as [|c a IH]; cbn; [reflexivity|].
  now rewrite Ascii.eqb_refl.
Qed.

Lemma endsWith_append a suffix : endsWith (a ++ suffix) suffix = true.
Proof.
  unfold endsWith. rewrite length_append.
  replace (String.length a + String.length suffix - String.length suffix)
    with (String.length a) by lia.
  rewrite slice_append, String.eqb_refl, andb_true_r.
  apply Nat.leb_le. lia.
Qed.

Lemma replace_suffix a :
  lacks "/" a = true -> replace (a ++ "/package.json") "/package.json" "" = a.
Proof.
  induction a as [|c a IH]; [reflexivity|]. intros H.
  cbn in H. apply andb_true_iff in H as [Hc Ha]. apply negb_true_iff in Hc.
  cbn. now rewrite Hc, (IH Ha).
Qed.

Lemma split_lacks c a : lacks c a = true -> split c a = [a].
Proof.
  induction a as [|x a IH]; [reflexivity|]. intros H.
  cbn in H. apply andb_true_iff in H as [Hx Ha]. apply negb_true_iff in Hx.
  cbn. now rewrite Hx, (IH Ha).
Qed.

Lemma split_append c a b :
  lacks c a = true -> split c (a ++ String c b) = a :: split c b.
Proof.
  induction a as [|x a IH]; intros H.
  - cbn. now rewrite Ascii.eqb_refl.
  - cbn in H. apply andb_true_iff in H as [Hx Ha]. apply negb_true_iff in Hx.
    cbn. now rewrite Hx, (IH Ha).
Qed.

Lemma stripCdn_append cdn pkg :
  cdn = Interceptor.CDN_JSDELIVR \/ cdn = Interceptor.CDN_OBSERVABLE ->
  Interceptor.stripCdn (cdn ++ pkg) = Some pkg.
Proof.
  intros [->| ->]; reflexivity.
Qed.

(** For an unscoped [name@version] that resolves to a file, the manifest
    request is answered with that name, that version and the basename of
    the file. *)
Lemma manifest_of_unscoped_package {Init : Type} depMap cdn nm ver p (init : Init) :
  cdn = Interceptor.CDN_JSDELIVR \/ cdn = Interceptor.CDN_OBSERVABLE ->
  lacks "@" nm = true -> lacks "/" nm = true ->
  lacks "@" ver = true -> lacks "/" ver = true -> ver <> "" ->
  Interceptor.findLocalPath depMap (nm ++ "@" ++ ver) = Some (Str p) -> p <> "" ->
  Interceptor.fetch depMap
    (Interceptor.InString (cdn ++ (nm ++ "@" ++ ver) ++ "/package.json")) init
  = Interceptor.Respond
      {| Interceptor.name := nm;
         Interceptor.version := ver;
         Interceptor.main := Interceptor.basename p;
         Interceptor.jsdelivr := Interceptor.basename p;
         Interceptor.unpkg := Interceptor.basename p |}.
Proof.
  intros Hcdn Hn1 Hn2 Hv1 Hv2 Hv Hp Hpne.
  unfold Interceptor.fetch, Interceptor.cdnToLocal. cbn [Interceptor.urlOf].
  rewrite (stripCdn_append _ _ Hcdn), endsWith_append.
  replace (truthyStr ((nm ++ "@" ++ ver) ++ "/package.json")) with true
    by (now destruct nm).
  rewrite replace_suffix by (rewrite lacks_append, Hn2; cbn; exact Hv2).
  rewrite Hp. cbn [truthy]. rewrite (truthyStr_nonempty _ Hpne).
  change (nm ++ "@" ++ ver) with (nm ++ String "@" ver).
  rewrite (split_append _ _ _ Hn1), (split_lacks _ _ Hv1). cbn.
  now rewrite (truthyStr_nonempty _ Hv).
Qed.

(** C4, at a scoped package: the manifest request for
    [@observablehq/plot@0.6.11/package.json] is answered with the empty
    name and the version [observablehq/plot], because the override splits
    the specifier at its first at sign, which opens the scope. *)
Theorem manifest_of_scoped_package :
  Interceptor.fetch
    plotOnly
    (Interceptor.InString
       "https://cdn.jsdelivr.net/npm/@observablehq/plot@0.6.11/package.json")
    tt
  = Interceptor.Respond
      {| Interceptor.name := "";
         Interceptor.version := "observablehq/plot";
         Interceptor.main := "plot.umd.min.js";
         Interceptor.jsdelivr := "plot.umd.min.js";
         Interceptor.unpkg := "plot.umd.min.js" |}.
Proof. vm_compute. reflexivity. Qed.

(** ** The parser *)

(** C5: the parser is a total function, and on every input that has
    neither the scoped nor the unscoped form it returns the bare-name
    record: the whole input as the name, no version, the empty path; on
    these inputs only is the version absent.  ([scopedForm] and
    [unscopedForm] decide [scopedShape] and [unscopedShape], in which a
    subpath is a non-empty text without LF, CR, U+2028 and U+2029.) *)
Theorem parse_total_with_bare_fallback (s : string) :
  (exists p, Resolver.parsePackageIdentifier s = p)
  /\ (scopedForm s = false -> unscopedForm s = false ->
      Resolver.parsePackageIdentifier s
      = {| Resolver.name := s; Resolver.version := None; Resolver.path := "" |})
  /\ (Resolver.version (Resolver.parsePackageIdentifier s) = None
      <-> scopedForm s = false /\ unscopedForm s = false).
Proof.
  split; [eauto|]. rewrite parse_parts. unfold parts, scopedForm, unscopedForm.
  destruct (scopedParts s) as [[n [v op]]|].
  - split; [discriminate|]. cbn. split; [discriminate|]. intros [H _]. discriminate.
  - destruct (regularParts s) as [[n [v op]]|].
    + split; [discriminate|]. cbn. split; [discriminate|]. intros [_ H]. discriminate.
    + split; [reflexivity|]. cbn. split; auto.
Qed.

Lemma parse_total_with_bare_fallback_witness :
  scopedForm "d3@7/" = false /\ unscopedForm "d3@7/" = false
  /\ Resolver.parsePackageIdentifier "d3@7/"
     = {| Resolver.name := "d3@7/"; Resolver.version := None; Resolver.path := "" |}.
Proof.
  split; [reflexivity|]. split; [reflexivity|].
  apply (proj1 (proj2 (parse_total_with_bare_fallback "d3@7/"))); reflexivity.
Defined.

(** A subpath with U+2028 in it: the dot of the patterns stops there, so
    neither pattern matches up to the end and the input is taken as a bare
    name; with U+2027, the character before it, the subpath is accepted. *)
Example parse_line_separator :
  Resolver.parsePackageIdentifier ("a@1/b" ++ LINE_SEPARATOR ++ "c")
  = {| Resolver.name := "a@1/b" ++ LINE_SEPARATOR ++ "c";
       Resolver.version := None; Resolver.path := "" |}
  /\ unscopedForm ("a@1/b" ++ LINE_SEPARATOR ++ "c") = false
  /\ Resolver.parsePackageIdentifier
       ("a@1/b" ++ String "226" (String "128" (String "167" "c")))
     = {| Resolver.name := "a";
          Resolver.version := Some "1";
          Resolver.path := "b" ++ String "226" (String "128" (String "167" "c")) |}.
Proof. repeat split. Qed.

(** C6, as stated, fails on the empty string, which takes the bare-name
    branch and becomes the name. *)
Lemma empty_specifier_counterexample :
  Resolver.name (Resolver.parsePackageIdentifier "") = "".
Proof. reflexivity. Qed.

(** C6, amended: the parsed name is empty only for the empty input; every
    non-empty input gets a non-empty name. *)
Theorem parsed_name_empty_iff (s : string) :
  Resolver.name (Resolver.parsePackageIdentifier s) = "" <-> s = "".
Proof.
  rewrite parse_parts. destruct (parts s) as [[n [v op]]|] eqn:E; cbn.
  - destruct (parts_sound _ _ _ _ E) as (-> & Hn & _).
    destruct n; [discriminate|]. split; discriminate.
  - reflexivity.
Qed.

(** ** Installation *)

(** C7, as stated, fails: the script has no guard, so running it a second
    time wraps the primitives a second time. *)
Lemma install_twice_counterexample :
  Interceptor.fetchDepth
    (Interceptor.window_fetch
       (Interceptor.install [] (Interceptor.install [] Interceptor.pristine))) = 2
  /\ Interceptor.createElementDepth
       (Interceptor.document_createElement
          (Interceptor.install [] (Interceptor.install [] Interceptor.pristine))) = 2
  /\ Interceptor.install [] (Interceptor.install [] Interceptor.pristine)
     <> Interceptor.install [] Interceptor.pristine.
Proof. repeat split. discriminate. Qed.

(** C7, amended: every execution of the script adds exactly one override
    around the [fetch] and the [createElement] it finds, each delegating to
    the one installed before it; after [n] executions the depth has grown
    by [n]. *)
Theorem install_adds_one_layer (depMap : object) (n : nat) (w : Interceptor.window) :
  Interceptor.fetchDepth
    (Interceptor.window_fetch (Interceptor.installTimes n depMap w))
  = n + Interceptor.fetchDepth (Interceptor.window_fetch w)
  /\ Interceptor.createElementDepth
       (Interceptor.document_createElement (Interceptor.installTimes n depMap w))
     = n + Interceptor.createElementDepth (Interceptor.document_createElement w).
Proof.
  induction n as [|n [IHf IHc]]; [split; reflexivity|].
  cbn. now rewrite IHf, IHc.
Qed.

(** ** Loading the dependency map *)

Lemma log_dependencyMap text st :
  Resolver.dependencyMap (Resolver.log text st) = Resolver.dependencyMap st.
Proof. unfold Resolver.log. now destruct (Resolver.DEBUG st). Qed.

(** The load never rejects: whatever the page and the network do, the
    [catch] block turns a failure into a warning. *)
Lemma loadDependencyMap_completes pg st :
  exists st', Resolver.loadDependencyMap pg st = Resolver.Normal st'.
Proof.
  unfold Resolver.loadDependencyMap.
  destruct (Resolver.tryLoad pg st); eauto.
Qed.

Lemma directFetch_failure pg st st' :
  Resolver.fallbackLoads pg = false ->
  Resolver.directFetch pg st = Resolver.Normal st' -> st' = st.
Proof.
  unfold Resolver.fallbackLoads, Resolver.directFetch, Resolver.doFetch.
  destruct (Resolver.fetch pg "ojs-offline-dependency-map.json") as [|ok body];
    cbn; [discriminate|].
  destruct ok; cbn; [|now intros _ H; injection H].
  destruct body; cbn; discriminate.
Qed.

(** When neither source yields a map, the load completes and leaves
    [dependencyMap] as it was. *)
Lemma load_failure_keeps_map pg st :
  Resolver.primaryLoads pg = false -> Resolver.fallbackLoads pg = false ->
  exists st', Resolver.loadDependencyMap pg st = Resolver.Normal st'
              /\ Resolver.dependencyMap st' = Resolver.dependencyMap st.
Proof.
  intros Hp Hf. unfold Resolver.loadDependencyMap.
  destruct (Resolver.tryLoad pg st) as [st'|e] eqn:E; [|eexists; split; reflexivity].
  exists st'. split; [reflexivity|].
  unfold Resolver.tryLoad, Resolver.primaryLoads in *.
  destruct (Resolver.mapScript pg) as [[mapUrl|]|];
    try (now rewrite (directFetch_failure _ _ _ Hf E)).
  destruct (truthyStr mapUrl);
    [|now rewrite (directFetch_failure _ _ _ Hf E)].
  unfold Resolver.doFetch in E.
  destruct (Resolver.fetch pg mapUrl) as [|ok [o|]]; cbn in *; discriminate.
Qed.

(** ** Resolution over the empty map *)

Lemma hit_empty k : hit [] k = if inherited k then Some (Inherited k) else None.
Proof. unfold hit, get. cbn [own]. destruct (inherited k); reflexivity. Qed.

(** A key with an at sign never reads an inherited member, in particular
    not the [aliasKey] of the inline resolver. *)
Lemma versioned_key_own_only o n r k :
  hit o (n ++ "@" ++ r) <> Some (Inherited k).
Proof.
  unfold hit, get. destruct (own o (n ++ "@" ++ r)) as [v|].
  - cbn. destruct (truthyStr v); discriminate.
  - rewrite versioned_key_not_inherited. discriminate.
Qed.

(** Over the empty map the standalone resolver returns null except for the
    names every object inherits from [Object.prototype]. *)
Lemma findLocalPath_empty_map s :
  Resolver.findLocalPath [] s = None <-> inherited s = false.
Proof.
  unfold Resolver.findLocalPath. cbv zeta. rewrite parse_parts, hit_empty.
  destruct (inherited s) eqn:Hs; [split; discriminate|].
  split; [reflexivity|intros _].
  destruct (parts s) as [[n [v op]]|] eqn:E;
    cbn [Resolver.version Resolver.name Resolver.path Resolver.orEmpty bare scan].
  - destruct (parts_sound _ _ _ _ E) as (_ & _ & Hv & _).
    rewrite Hv, !hit_empty, !versioned_key_not_inherited. reflexivity.
  - rewrite !hit_empty, Hs. reflexivity.
Qed.

(** C8, at the failing input: with no map element and a network that
    rejects every fetch, the load completes with the empty map, and the
    resolver then answers the specifier [constructor] with the member of
    that name inherited from [Object.prototype], not with null; the inline
    resolver does the same over the [{}] the filter writes when it cannot
    read the map file. *)
Theorem empty_map_resolves_inherited_name :
  exists st,
    Resolver.loadDependencyMap Resolver.offlinePage Resolver.initial
    = Resolver.Normal st
    /\ Resolver.dependencyMap st = []
    /\ Resolver.findLocalPath (Resolver.dependencyMap st) "constructor"
       = Some (Inherited "constructor")
    /\ Interceptor.findLocalPath (Resolver.dependencyMap st) "constructor"
       = Some (Inherited "constructor").
Proof. eexists. repeat split. Qed.

(** ** The debug toggle *)

(** C9, at every argument: [DEBUG] is declared [const], so the assignment
    in [setDebug] throws a TypeError; the flag keeps the [false] it starts
    with, under which [log] prints nothing. *)
Theorem setDebug_throws (enabled : bool) (st : Resolver.state) :
  Resolver.setDebug enabled st = Resolver.Throw Resolver.TypeError
  /\ forall text, Resolver.log text Resolver.initial = Resolver.initial.
Proof. split; reflexivity. Qed.

(** With [DEBUG] left at [false], [log] writes nothing. *)
Lemma log_silent text st :
  Resolver.DEBUG st = false -> Resolver.log text st = st.
Proof. unfold Resolver.log. now intros ->. Qed.

(** ** The scenarios of the specification, evaluated *)

(** Scenario 1, on the standalone resolver: without an alias table, [d3@7]
    reaches [d3@7.8.5] through the scan for a key starting with [d3@]. *)
Example scenario_alias_standalone :
  Resolver.findLocalPath d3Only "d3@7" = Some (Str "libs/d3@7.8.5/d3.min.js").
Proof. reflexivity. Qed.

(** Scenario 2: the key with its subpath is found verbatim, and the base
    package [lodash@4.17.21] falls through to the scan. *)
Example scenario_lodash :
  Resolver.findLocalPath lodashFile "lodash@4.17.21/lodash.min.js"
    = Some (Str "libs/lodash/lodash.min.js")
  /\ Resolver.findLocalPath lodashFile "lodash@4.17.21"
    = Some (Str "libs/lodash/lodash.min.js")
  /\ Interceptor.findLocalPath lodashFile "lodash@4.17.21"
    = Some (Str "libs/lodash/lodash.min.js").
Proof. repeat split. Qed.

(** Scenario 3: nothing resolves [d3@7] over the empty map. *)
Example scenario_empty_map :
  Resolver.findLocalPath [] "d3@7" = None
  /\ Interceptor.findLocalPath [] "d3@7" = None.
Proof. split; reflexivity. Qed.

(** Scenario 4: the manifest synthesized for [d3@7.8.5/package.json]. *)
Example scenario_manifest :
  Interceptor.fetch d3Only
    (Interceptor.InString "https://cdn.jsdelivr.net/npm/d3@7.8.5/package.json") tt
  = Interceptor.Respond
      {| Interceptor.name := "d3";
         Interceptor.version := "7.8.5";
         Interceptor.main := "d3.min.js";
         Interceptor.jsdelivr := "d3.min.js";
         Interceptor.unpkg := "d3.min.js" |}.
Proof. vm_compute. reflexivity. Qed.

(** A CDN request that resolves is redirected to the local file. *)
Example scenario_redirect :
  Interceptor.fetch d3Only
    (Interceptor.InString "https://cdn.jsdelivr.net/npm/d3@7") tt
  = Interceptor.Delegate (Interceptor.Url (Str "libs/d3@7.8.5/d3.min.js")) tt.
Proof. vm_compute. reflexivity. Qed.

(** * Further properties of the code *)

(** ** The parser on specifiers built from their parts *)

Lemma lacks_all c s : all (noneOf [c]) s = lacks c s.
Proof.
  unfold lacks. induction s as [|x s IH]; cbn [all]; [reflexivity|].
  rewrite IH. unfold noneOf. cbn. now rewrite orb_false_r.
Qed.

Lemma versionOf_built v op :
  v <> "" -> lacks "/" v = true ->
  match op with
  | Some q => q <> "" /\ singleLine q = true
  | None => True
  end ->
  versionOf (v ++ subpathText op) = Some (v, op).
Proof.
  intros Hv Hl Hop. unfold versionOf.
  rewrite span_exact.
  - destruct v as [|c v]; [congruence|].
    destruct op as [q|]; cbn [subpathText subpathOf]; [|reflexivity].
    destruct Hop as [Hq Hd]. cbn. rewrite Hd. now destruct q.
  - unfold notSlash. now rewrite lacks_all.
  - now destruct op.
Qed.

Lemma regularParts_built n v op :
  n <> "" -> lacks "@" n = true -> versionOf (v ++ subpathText op) = Some (v, op) ->
  regularParts (n ++ "@" ++ v ++ subpathText op) = Some (n, (v, op)).
Proof.
  intros Hn Hl Hv. unfold regularParts.
  rewrite span_exact; [|unfold notAt; now rewrite lacks_all|reflexivity].
  destruct n as [|c n]; [congruence|]. cbn. now rewrite Hv.
Qed.

Lemma scopedParts_unscoped s : lacks "@" (take 1 s) = true -> scopedParts s = None.
Proof.
  destruct s as [|c s]; [reflexivity|]. cbn.
  destruct (Ascii.eqb c "@"); [discriminate|reflexivity].
Qed.

Lemma parts_unscoped_built n v op :
  n <> "" -> lacks "@" n = true ->
  v <> "" -> lacks "/" v = true ->
  match op with
  | Some q => q <> "" /\ singleLine q = true
  | None => True
  end ->
  parts (n ++ "@" ++ v ++ subpathText op) = Some (n, (v, op)).
Proof.
  intros Hn Hl Hv Hvl Hop. unfold parts.
  rewrite scopedParts_unscoped.
  - exact (regularParts_built n v op Hn Hl (versionOf_built v op Hv Hvl Hop)).
  - destruct n as [|c n]; [congruence|]. cbn in *.
    apply andb_true_iff in Hl as [-> _]. reflexivity.
Qed.

(** X1: an unscoped specifier put together from a non-empty name without
    at sign, a non-empty version without slash and, optionally, a non-empty
    subpath without line terminator (LF, CR, U+2028, U+2029) parses back
    into exactly these parts. *)
Theorem parse_unscoped_from_parts (n v : string) (op : option string) :
  n <> "" -> lacks "@" n = true ->
  v <> "" -> lacks "/" v = true ->
  match op with
  | Some q => q <> "" /\ singleLine q = true
  | None => True
  end ->
  Resolver.parsePackageIdentifier (n ++ "@" ++ v ++ subpathText op)
  = {| Resolver.name := n; Resolver.version := Some v;
       Resolver.path := Resolver.orEmpty op |}.
Proof.
  intros Hn Hl Hv Hvl Hop. rewrite parse_parts.
  now rewrite (parts_unscoped_built n v op Hn Hl Hv Hvl Hop).
Qed.

Lemma parse_unscoped_from_parts_witness :
  Resolver.parsePackageIdentifier "lodash@4.17.21/lodash.min.js"
  = {| Resolver.name := "lodash"; Resolver.version := Some "4.17.21";
       Resolver.path := "lodash.min.js" |}.
Proof.
  apply (parse_unscoped_from_parts "lodash" "4.17.21" (Some "lodash.min.js"));
    try discriminate; try reflexivity.
  split; [discriminate|reflexivity].
Defined.

(** X2: a scoped specifier put together from a non-empty scope without
    slash, a non-empty name without at sign, a non-empty version without
    slash and, optionally, a non-empty subpath without line terminator (LF,
    CR, U+2028, U+2029) parses back into these parts, the name keeping its
    scope. *)
Theorem parse_scoped_from_parts (scope n v : string) (op : option string) :
  scope <> "" -> lacks "/" scope = true ->
  n <> "" -> lacks "@" n = true ->
  v <> "" -> lacks "/" v = true ->
  match op with
  | Some q => q <> "" /\ singleLine q = true
  | None => True
  end ->
  Resolver.parsePackageIdentifier
    ("@" ++ scope ++ "/" ++ n ++ "@" ++ v ++ subpathText op)
  = {| Resolver.name := "@" ++ scope ++ "/" ++ n; Resolver.version := Some v;
       Resolver.path := Resolver.orEmpty op |}.
Proof.
  intros Hs Hsl Hn Hl Hv Hvl Hop. rewrite parse_parts. unfold parts, scopedParts.
  cbn. rewrite span_exact; [|unfold notSlash; now rewrite lacks_all|reflexivity].
  destruct scope as [|c1 scope]; [congruence|]. cbn.
  rewrite span_exact; [|unfold notAt; now rewrite lacks_all|reflexivity].
  destruct n as [|c3 n]; [congruence|]. cbn.
  now rewrite (versionOf_built v op Hv Hvl Hop).
Qed.

Lemma parse_scoped_from_parts_witness :
  Resolver.parsePackageIdentifier "@observablehq/plot@0.6.11/dist/plot.umd.min.js"
  = {| Resolver.name := "@observablehq/plot"; Resolver.version := Some "0.6.11";
       Resolver.path := "dist/plot.umd.min.js" |}.
Proof.
  apply (parse_scoped_from_parts "observablehq" "plot" "0.6.11"
           (Some "dist/plot.umd.min.js"));
    try discriminate; try reflexivity.
  split; [discriminate|reflexivity].
Defined.

Lemma versionOf_fields r v op :
  versionOf r = Some (v, op) ->
  lacks "/" v = true
  /\ match op with Some q => singleLine q = true | None => True end.
Proof.
  unfold versionOf.
  pose proof (span_all notSlash r) as Hl.
  destruct (span notSlash r) as [v' t]; cbn [fst snd] in *.
  destruct v' as [|c v']; [discriminate|].
  unfold notSlash in Hl. rewrite lacks_all in Hl.
  destruct t as [|c' p]; cbn.
  - intros H. injection H as <- <-. now split.
  - destruct (Ascii.eqb c' "/"); [|discriminate].
    destruct (truthyStr p); [|discriminate].
    destruct (singleLine p) eqn:Hd; [|discriminate].
    intros H. injection H as <- <-. now split.
Qed.

Lemma parts_fields s n v op :
  parts s = Some (n, (v, op)) ->
  lacks "/" v = true
  /\ match op with Some q => singleLine q = true | None => True end.
Proof.
  unfold parts. destruct (scopedParts s) as [x|] eqn:Es.
  - intros H. injection H as ->. revert Es. unfold scopedParts.
    destruct s as [|c s1]; [discriminate|].
    destruct (Ascii.eqb c "@"); [|discriminate].
    destruct (span notSlash s1) as [[|c1 scope] [|c2 s2]]; try discriminate.
    destruct (Ascii.eqb c2 "/"); [|discriminate].
    destruct (span notAt s2) as [[|c3 n'] [|c4 r]]; try discriminate.
    destruct (Ascii.eqb c4 "@"); [|discriminate].
    destruct (versionOf r) as [[v' op']|] eqn:E; [|discriminate].
    intros H. injection H as _ <- <-. exact (versionOf_fields _ _ _ E).
  - unfold regularParts.
    destruct (span notAt s) as [[|c n'] [|c' r]]; try discriminate.
    destruct (Ascii.eqb c' "@"); [|discriminate].
    destruct (versionOf r) as [[v' op']|] eqn:E; [|discriminate].
    intros H. injection H as _ <- <-. exact (versionOf_fields _ _ _ E).
Qed.

(** X3: whenever the parser reports a version, that version is non-empty
    and holds no slash, the name is non-empty, and the path holds no line
    terminator: no LF, no CR, no U+2028 and no U+2029. *)
Theorem parsed_fields_when_versioned (s v : string) :
  Resolver.version (Resolver.parsePackageIdentifier s) = Some v ->
  v <> "" /\ lacks "/" v = true
  /\ Resolver.name (Resolver.parsePackageIdentifier s) <> ""
  /\ singleLine (Resolver.path (Resolver.parsePackageIdentifier s)) = true.
Proof.
  rewrite parse_parts. destruct (parts s) as [[n [v' op]]|] eqn:E; [|discriminate].
  cbn. intros H. injection H as <-.
  destruct (parts_sound _ _ _ _ E) as (_ & Hn & Hv & _).
  destruct (parts_fields _ _ _ _ E) as (Hl & Hq).
  repeat split; auto.
  - now destruct v'.
  - now destruct n.
  - destruct op; [exact Hq|reflexivity].
Qed.

Lemma parsed_fields_when_versioned_witness :
  "7.8.5" <> "" /\ lacks "/" "7.8.5" = true
  /\ Resolver.name (Resolver.parsePackageIdentifier "d3@7.8.5/dist/d3.min.js") <> ""
  /\ singleLine
       (Resolver.path (Resolver.parsePackageIdentifier "d3@7.8.5/dist/d3.min.js"))
     = true.
Proof.
  apply (parsed_fields_when_versioned "d3@7.8.5/dist/d3.min.js" "7.8.5").
  reflexivity.
Defined.

(** X4: a specifier without an at sign is a bare name: the parser returns it
    whole as the name, with no version and the empty path. *)
Theorem parse_without_at_sign (s : string) :
  lacks "@" s = true ->
  Resolver.parsePackageIdentifier s
  = {| Resolver.name := s; Resolver.version := None; Resolver.path := "" |}.
Proof.
  intros H. rewrite parse_parts. unfold parts.
  rewrite scopedParts_unscoped.
  - unfold regularParts. rewrite <- (append_empty s) at 1.
    rewrite span_exact; [|unfold notAt; now rewrite lacks_all|exact I].
    now destruct s.
  - destruct s as [|c s]; [reflexivity|]. cbn in *.
    apply andb_true_iff in H as [-> _]. reflexivity.
Qed.

Lemma parse_without_at_sign_witness :
  Resolver.parsePackageIdentifier "lodash/fp"
  = {| Resolver.name := "lodash/fp"; Resolver.version := None; Resolver.path := "" |}.
Proof. apply (parse_without_at_sign "lodash/fp"). reflexivity. Defined.

(** ** What the resolvers return *)

Lemma own_in o k v : own o k = Some v -> In (k, v) o.
Proof.
  induction o as [|[k' v'] o IH]; cbn; [discriminate|].
  destruct (String.eqb k' k) eqn:E.
  - apply String.eqb_eq in E. subst k'. intros H. injection H as ->. now left.
  - intros H. right. now apply IH.
Qed.

Lemma in_own o k v : In (k, v) o -> exists v', own o k = Some v'.
Proof.
  induction o as [|[k' v'] o IH]; cbn; [contradiction|].
  intros [H|H].
  - injection H as -> ->. rewrite String.eqb_refl. eauto.
  - destruct (String.eqb k' k); eauto.
Qed.

Lemma get_in o k v : get o k = Some (Str v) -> In (k, v) o.
Proof.
  unfold get. destruct (own o k) as [v'|] eqn:E.
  - intros H. injection H as <-. now apply own_in.
  - destruct (inherited k); discriminate.
Qed.

Lemma hit_in o k v : hit o k = Some (Str v) -> In (k, v) o.
Proof.
  unfold hit. destruct (get o k) as [x|] eqn:E; [|discriminate].
  destruct (truthy x); [|discriminate].
  intros H. injection H as ->. now apply get_in.
Qed.

Lemma anyKey_in p o v :
  Strategies.anyKey p o = Some (Str v) -> exists k, In (k, v) o.
Proof.
  unfold Strategies.anyKey. destruct (find _ o) as [kv|]; [|discriminate].
  intros H. exists (fst kv). now apply get_in.
Qed.

Lemma firstHit_in {A : Type} (l : list (option A)) x :
  Spec.firstHit l = Some x -> In (Some x) l.
Proof.
  induction l as [|[y|] l IH]; cbn; [discriminate| |].
  - intros H. injection H as ->. now left.
  - intros H. right. now apply IH.
Qed.

Lemma in_firstHit {A : Type} (l : list (option A)) x :
  In (Some x) l -> Spec.firstHit l <> None.
Proof.
  induction l as [|[y|] l IH]; cbn; [contradiction|discriminate|].
  intros [H|H]; [discriminate|now apply IH].
Qed.

(** X5: a path the standalone resolver returns is the value of some entry
    of the dependency map: it never makes one up. *)
Theorem standalone_returns_map_values depMap specifier v :
  Resolver.findLocalPath depMap specifier = Some (Str v) ->
  exists k, In (k, v) depMap.
Proof.
  rewrite standalone_order. intros H. apply firstHit_in in H.
  unfold Strategies.standalone in H. cbn [In] in H.
  destruct H as [H|[H|[H|[H|[]]]]];
    try (eexists; apply hit_in; exact H).
  now apply anyKey_in in H.
Qed.

Lemma standalone_returns_map_values_witness :
  exists k, In (k, "libs/d3@5.0.0/d3.min.js") twoD3.
Proof.
  apply (standalone_returns_map_values twoD3 "d3@7"). reflexivity.
Defined.

Lemma viaAlias_in aliases depMap specifier v :
  Interceptor.viaAlias aliases depMap specifier = Some (Str v) ->
  exists k, In (k, v) depMap.
Proof.
  unfold Interceptor.viaAlias.
  destruct (lastIndexOf "@" specifier) as [i|]; [|discriminate].
  destruct (Nat.ltb 0 i); [|discriminate].
  destruct (hit aliases _) as [[aliased|]|]; try discriminate.
  intros H. eexists. apply hit_in. exact H.
Qed.

Lemma viaBareName_in depMap specifier v :
  Interceptor.viaBareName depMap specifier = Some (Str v) ->
  exists k, In (k, v) depMap.
Proof.
  unfold Interceptor.viaBareName.
  destruct (exec Interceptor.bareRe specifier) as [m|]; [|discriminate].
  destruct (group m 1); [|discriminate].
  intros H. eexists. apply hit_in. exact H.
Qed.

(** X6: a path the inline resolver returns is the value of some entry of
    the dependency map, whatever the alias table sends it through. *)
Theorem inline_returns_map_values depMap specifier v :
  Interceptor.findLocalPath depMap specifier = Some (Str v) ->
  exists k, In (k, v) depMap.
Proof.
  unfold Interceptor.findLocalPath. rewrite inline_order.
  intros H. apply firstHit_in in H.
  unfold Strategies.inline in H. cbn [In] in H.
  destruct H as [H|[H|[H|[H|[]]]]].
  - eexists. apply hit_in. exact H.
  - now apply viaAlias_in in H.
  - now apply viaBareName_in in H.
  - now apply anyKey_in in H.
Qed.

Lemma inline_returns_map_values_witness :
  exists k, In (k, "libs/d3@7.8.5/d3.min.js") d3Only.
Proof.
  apply (inline_returns_map_values d3Only "d3@7.1/dist/file.js"). reflexivity.
Defined.

Lemma find_key_none (p : string -> bool) (o : object) :
  find (fun kv => p (fst kv)) o = None <->
  forall k v, In (k, v) o -> p k = false.
Proof.
  induction o as [|[k v] o IH]; cbn.
  - split; [intros _ k v []|reflexivity].
  - destruct (p k) eqn:E.
    + split; [discriminate|]. intros H. rewrite (H k v) in E; [discriminate|now left].
    + rewrite IH. split.
      * intros H k' v' [H'|H']; [now injection H' as <- <-|eauto].
      * intros H k' v' H'. apply (H k' v'). now right.
Qed.

Lemma anyKey_none (p : string -> bool) (o : object) :
  Strategies.anyKey p o = None <-> forall k v, In (k, v) o -> p k = false.
Proof.
  unfold Strategies.anyKey. rewrite <- find_key_none.
  destruct (find _ o) as [[k v]|] eqn:E; [|tauto].
  split; [|discriminate]. apply find_some in E as [Hin _].
  destruct (in_own _ _ _ Hin) as [v' Hv']. unfold get. cbn. rewrite Hv'. discriminate.
Qed.

Lemma startsWith_versioned n r : startsWith (n ++ "@" ++ r) (n ++ "@") = true.
Proof.
  replace (n ++ "@" ++ r) with ((n ++ "@") ++ r) by apply append_assoc'.
  apply startsWith_append.
Qed.

Lemma hit_absent o k : own o k = None -> inherited k = false -> hit o k = None.
Proof. intros H I. unfold hit, get. now rewrite H, I. Qed.

(** X7: for a versioned unscoped specifier [name@version] the standalone
    resolver returns null exactly when no key of the map starts with
    [name@]: any bundled version of the package answers a request for any
    other version. *)
Theorem standalone_null_iff_no_version (depMap : object) (n v : string) :
  n <> "" -> lacks "@" n = true -> v <> "" -> lacks "/" v = true ->
  (Resolver.findLocalPath depMap (n ++ "@" ++ v) = None
   <-> forall k x, In (k, x) depMap -> startsWith k (n ++ "@") = false).
Proof.
  intros Hn Hl Hv Hvl.
  assert (Hp : Resolver.parsePackageIdentifier (n ++ "@" ++ v)
               = {| Resolver.name := n; Resolver.version := Some v;
                    Resolver.path := "" |}).
  { pose proof (parts_unscoped_built n v None Hn Hl Hv Hvl I) as Hp.
    cbn [subpathText] in Hp. rewrite append_empty in Hp.
    rewrite parse_parts. now rewrite Hp. }
  rewrite standalone_order, firstHit_None. unfold Strategies.standalone.
  rewrite Hp. cbn [Spec.canonical Spec.basePackage Strategies.orElse
                   Resolver.name Resolver.version Resolver.path truthyStr].
  rewrite append_empty. split.
  - intros H. do 3 apply Forall_inv_tail in H. apply Forall_inv in H.
    now apply anyKey_none.
  - intros H.
    assert (Ho : own depMap (n ++ "@" ++ v) = None).
    { destruct (own depMap (n ++ "@" ++ v)) as [x|] eqn:E; [|reflexivity].
      apply own_in in E. apply H in E. now rewrite startsWith_versioned in E. }
    pose proof (hit_absent _ _ Ho (versioned_key_not_inherited n v)) as Hh.
    repeat constructor; auto. now apply anyKey_none.
Qed.

Lemma standalone_null_iff_no_version_witness :
  Resolver.findLocalPath lodashFile "d3@7" = None
  <-> forall k x, In (k, x) lodashFile -> startsWith k "d3@" = false.
Proof.
  apply (standalone_null_iff_no_version lodashFile "d3" "7");
    (discriminate || reflexivity).
Defined.

Lemma pkgNameOf_unscoped n r :
  n <> "" -> lacks "@" n = true -> Interceptor.pkgNameOf (n ++ "@" ++ r) = n.
Proof.
  intros Hn Hl. unfold Interceptor.pkgNameOf.
  change (n ++ "@" ++ r) with (n ++ String "@" r).
  rewrite (first_split_append _ _ _ Hl). now destruct n.
Qed.

(** X8: in the inline resolver too, a request for any version of an
    unscoped package is answered as soon as some key of the map starts with
    [name@]. *)
Theorem inline_any_version_answers (depMap : object) (n r k x : string) :
  n <> "" -> lacks "@" n = true ->
  In (k, x) depMap -> startsWith k (n ++ "@") = true ->
  Interceptor.findLocalPath depMap (n ++ "@" ++ r) <> None.
Proof.
  intros Hn Hl Hin Hk. unfold Interceptor.findLocalPath.
  rewrite inline_order. unfold Strategies.inline.
  rewrite (pkgNameOf_unscoped n r Hn Hl).
  destruct (Strategies.anyKey
              (fun key => startsWith key (n ++ "@") || String.eqb key n) depMap)
    as [y|] eqn:E.
  - apply (in_firstHit _ y). cbn [In]. do 3 right. now left.
  - rewrite anyKey_none in E. specialize (E k x Hin). now rewrite Hk in E.
Qed.

Lemma inline_any_version_answers_witness :
  Interceptor.findLocalPath twoLodash "lodash@1.0.0" <> None.
Proof.
  apply (inline_any_version_answers twoLodash "lodash" "1.0.0"
           "lodash@4.17.21" "libs/lodash@4.17.21/lodash.min.js");
    (discriminate || reflexivity || (cbn; auto)).
Defined.

(** ** Loading, case by case *)

(** X9: when neither source yields a map, the promise of
    [loadDependencyMap] still fulfils, and [dependencyMap] and [DEBUG] are
    left as they were. *)
Theorem load_survives_failure (pg : Resolver.page) (st : Resolver.state) :
  Resolver.primaryLoads pg = false -> Resolver.fallbackLoads pg = false ->
  exists st',
    Resolver.loadDependencyMap pg st = Resolver.Normal st'
    /\ Resolver.dependencyMap st' = Resolver.dependencyMap st
    /\ Resolver.DEBUG st' = Resolver.DEBUG st.
Proof.
  intros Hp Hf.
  destruct (load_failure_keeps_map pg st Hp Hf) as (st' & Hl & Hm).
  exists st'. repeat split; auto.
  unfold Resolver.loadDependencyMap in Hl.
  destruct (Resolver.tryLoad pg st) as [st1|e] eqn:E.
  - injection Hl as <-.
    unfold Resolver.tryLoad, Resolver.primaryLoads in *.
    destruct (Resolver.mapScript pg) as [[mapUrl|]|];
      try (now rewrite (directFetch_failure _ _ _ Hf E)).
    destruct (truthyStr mapUrl);
      [|now rewrite (directFetch_failure _ _ _ Hf E)].
    unfold Resolver.doFetch in E.
    destruct (Resolver.fetch pg mapUrl) as [|ok [o|]]; cbn in *; discriminate.
  - now injection Hl as <-.
Qed.

Lemma load_survives_failure_witness :
  exists st',
    Resolver.loadDependencyMap
      {| Resolver.mapScript := Some (Some "dependency-map.json");
         Resolver.fetch := fun _ => Resolver.Response false None |}
      Resolver.initial = Resolver.Normal st'
    /\ Resolver.dependencyMap st' = Resolver.dependencyMap Resolver.initial
    /\ Resolver.DEBUG st' = Resolver.DEBUG Resolver.initial.
Proof.
  apply (load_survives_failure
           {| Resolver.mapScript := Some (Some "dependency-map.json");
              Resolver.fetch := fun _ => Resolver.Response false None |}
           Resolver.initial); reflexivity.
Defined.

(** X10: when the map element has a non-empty [src] and the response body
    parses, the parsed object becomes the dependency map whatever the status
    of the response: the primary path does not look at [response.ok]. *)
Theorem primary_source_ignores_status
  (pg : Resolver.page) (st : Resolver.state) (mapUrl : string) (ok : bool)
  (o : object) :
  Resolver.mapScript pg = Some (Some mapUrl) -> mapUrl <> "" ->
  Resolver.fetch pg mapUrl = Resolver.Response ok (Some o) ->
  exists st',
    Resolver.loadDependencyMap pg st = Resolver.Normal st'
    /\ Resolver.dependencyMap st' = o.
Proof.
  intros Hs Hu Hf. unfold Resolver.loadDependencyMap, Resolver.tryLoad.
  rewrite Hs, (truthyStr_nonempty _ Hu). unfold Resolver.doFetch. rewrite Hf.
  cbn. eexists. split; [reflexivity|]. now rewrite log_dependencyMap.
Qed.

Lemma primary_source_ignores_status_witness :
  exists st',
    Resolver.loadDependencyMap
      {| Resolver.mapScript := Some (Some "dependency-map.json");
         Resolver.fetch :=
           fun _ => Resolver.Response false (Some [("error", "Not Found")]) |}
      Resolver.initial = Resolver.Normal st'
    /\ Resolver.dependencyMap st' = [("error", "Not Found")].
Proof.
  apply (primary_source_ignores_status
           {| Resolver.mapScript := Some (Some "dependency-map.json");
              Resolver.fetch :=
                fun _ => Resolver.Response false (Some [("error", "Not Found")]) |}
           Resolver.initial "dependency-map.json" false);
    (reflexivity || discriminate).
Defined.

(** X11: when the map element has a non-empty [src] but its fetch rejects
    or its body does not parse, the direct fetch is not tried: the map stays
    as it was and one warning is written, even where the direct fetch would
    have delivered a map. *)
Theorem no_fallback_after_failed_primary
  (pg : Resolver.page) (st : Resolver.state) (mapUrl : string) :
  Resolver.mapScript pg = Some (Some mapUrl) -> mapUrl <> "" ->
  (Resolver.fetch pg mapUrl = Resolver.Rejected
   \/ exists ok, Resolver.fetch pg mapUrl = Resolver.Response ok None) ->
  exists e,
    Resolver.loadDependencyMap pg st
    = Resolver.Normal
        (Resolver.warn "[OJS Offline] Failed to load dependency map:" e st).
Proof.
  intros Hs Hu Hf. unfold Resolver.loadDependencyMap, Resolver.tryLoad.
  rewrite Hs, (truthyStr_nonempty _ Hu). unfold Resolver.doFetch.
  destruct Hf as [->|[ok ->]]; cbn; eauto.
Qed.

Lemma no_fallback_after_failed_primary_witness :
  Resolver.fallbackLoads
    {| Resolver.mapScript := Some (Some "missing.json");
       Resolver.fetch :=
         fun url => if String.eqb url "missing.json" then Resolver.Rejected
                    else Resolver.Response true (Some d3Only) |} = true
  /\ exists e,
       Resolver.loadDependencyMap
         {| Resolver.mapScript := Some (Some "missing.json");
            Resolver.fetch :=
              fun url => if String.eqb url "missing.json" then Resolver.Rejected
                         else Resolver.Response true (Some d3Only) |}
         Resolver.initial
       = Resolver.Normal
           (Resolver.warn "[OJS Offline] Failed to load dependency map:" e
              Resolver.initial).
Proof.
  split; [reflexivity|].
  apply (no_fallback_after_failed_primary
           {| Resolver.mapScript := Some (Some "missing.json");
              Resolver.fetch :=
                fun url => if String.eqb url "missing.json" then Resolver.Rejected
                           else Resolver.Response true (Some d3Only) |}
           Resolver.initial "missing.json");
    [reflexivity|discriminate|left; reflexivity].
Defined.



(** ** Resolving to a URL and requiring *)


(** X14: through the installed [window._ojs.require], the rejection
    [Cannot resolve module] can only come from the original [require]: the
    offline branch is entered only for specifiers [findLocalPath] resolves,
    and those [resolveModuleSpecifier] never answers with null (URLs made by
    [new URL] being non-empty). *)
Theorem hooked_require_always_resolves
  (href : value -> string -> Resolver.completion string) (location : string)
  (M : Type) (import : string -> option M) (scriptLoads : string -> bool)
  (global : string -> option M) (emptyObject : M)
  (originalRequire : string -> Loader.required M)
  (dependencyMap : object) (specifier : string) (s' : string) :
  (forall x b u, href x b = Resolver.Normal u -> u <> "") ->
  Loader.require href location M import scriptLoads global emptyObject
    originalRequire dependencyMap specifier
  = Loader.Rejects (Loader.CannotResolve s') ->
  originalRequire specifier = Loader.Rejects (Loader.CannotResolve s').
Proof.
  intros Hu. unfold Loader.require.
  destruct (Resolver.findLocalPath dependencyMap specifier) as [localPath|] eqn:Ef;
    [|auto].
  destruct (truthy localPath) eqn:Et; [|auto].
  unfold Loader.ojsOfflineRequire, Loader.resolveModuleSpecifier.
  destruct (startsWith specifier "http://" || startsWith specifier "https://") eqn:E1.
  { replace (truthyStr specifier) with true.
    - destruct (import specifier); [discriminate|].
      destruct (scriptLoads specifier); discriminate.
    - destruct specifier; [discriminate|reflexivity]. }
  assert (Hh : forall x,
    match Resolver.bind (href x (Loader.baseOr location None))
            (fun u => Resolver.Normal (Some u, @nil string)) with
    | Resolver.Throw e => Loader.Rejects (Loader.Thrown e)
    | Resolver.Normal (None, _) => Loader.Rejects (Loader.CannotResolve specifier)
    | Resolver.Normal (Some resolvedUrl, _) =>
        if truthyStr resolvedUrl then
          match import resolvedUrl with
          | Some module => Loader.Loaded module
          | None =>
              if scriptLoads resolvedUrl then
                Loader.Loaded
                  match global (Loader.moduleNameOf specifier) with
                  | Some m => m
                  | None =>
                      match global specifier with
                      | Some m => m
                      | None => emptyObject
                      end
                  end
              else Loader.Rejects (Loader.FailedToLoad specifier)
          end
        else Loader.Rejects (Loader.CannotResolve specifier)
    end <> Loader.Rejects (Loader.CannotResolve s')).
  { intros x. destruct (href x _) as [u|e] eqn:Eh; cbn; [|discriminate].
    rewrite (truthyStr_nonempty _ (Hu _ _ _ Eh)).
    destruct (import u); [discriminate|]. destruct (scriptLoads u); discriminate. }
  destruct (startsWith specifier "./" || startsWith specifier "../").
  { intros H. now apply Hh in H. }
  rewrite Ef, Et. intros H. now apply Hh in H.
Qed.

Lemma hooked_require_always_resolves_witness :
  Loader.require (fun x b => Resolver.Normal (b ++ "libs/d3.min.js"))
    "https://example.org/" unit (fun _ => None) (fun _ => false) (fun _ => None) tt
    (fun s => Loader.Rejects (Loader.CannotResolve s)) d3Only "htl@0.3.1"
  = Loader.Rejects (Loader.CannotResolve "htl@0.3.1")
  /\ (fun s => @Loader.Rejects unit (Loader.CannotResolve s)) "htl@0.3.1"
     = Loader.Rejects (Loader.CannotResolve "htl@0.3.1").
Proof.
  split; [reflexivity|].
  apply (hooked_require_always_resolves
           (fun x b => Resolver.Normal (b ++ "libs/d3.min.js"))
           "https://example.org/" unit (fun _ => None) (fun _ => false)
           (fun _ => None) tt (fun s => Loader.Rejects (Loader.CannotResolve s))
           d3Only "htl@0.3.1" "htl@0.3.1").
  - intros x b u H. injection H as <-. now destruct b.
  - reflexivity.
Defined.

(** X15: the name under which the script-tag fallback looks for the module
    among the globals is the package name for an unscoped [name@...] whose
    name has no slash, and the empty string for a scoped
    [@scope/name@...]: [split('@')[0]] is what precedes the at sign that
    opens the scope. *)
Theorem moduleNameOf_unscoped_and_scoped (scope n rest : string) :
  lacks "@" n = true -> lacks "/" n = true ->
  Loader.moduleNameOf (n ++ "@" ++ rest) = n
  /\ Loader.moduleNameOf ("@" ++ scope ++ "/" ++ n ++ "@" ++ rest) = "".
Proof.
  intros Ha Hs. split; [|reflexivity]. unfold Loader.moduleNameOf.
  change (n ++ "@" ++ rest) with (n ++ String "@" rest).
  now rewrite (first_split_append _ _ _ Ha), (split_lacks _ _ Hs).
Qed.

Lemma moduleNameOf_unscoped_and_scoped_witness :
  Loader.moduleNameOf "plot@0.6.11" = "plot"
  /\ Loader.moduleNameOf "@observablehq/plot@0.6.11" = "".
Proof.
  apply (moduleNameOf_unscoped_and_scoped "observablehq" "plot" "0.6.11");
    reflexivity.
Defined.

(** ** The interceptor on CDN requests *)

Lemma inline_exact_key depMap k v :
  own depMap k = Some v -> v <> "" ->
  Interceptor.findLocalPath depMap k = Some (Str v).
Proof.
  intros Ho Hv. unfold Interceptor.findLocalPath, Interceptor.findLocalPathWith.
  now rewrite (hit_own _ _ _ Ho (truthyStr_nonempty _ Hv)).
Qed.

Lemma cdnToLocal_resolved depMap cdn pkg v :
  Interceptor.isCdn cdn -> pkg <> "" -> endsWith pkg "/package.json" = false ->
  Interceptor.findLocalPath depMap pkg = Some v -> truthy v = true ->
  Interceptor.cdnToLocal depMap (cdn ++ pkg) = Interceptor.LocalPath v.
Proof.
  intros Hc Hp He Hf Ht. unfold Interceptor.cdnToLocal.
  now rewrite (stripCdn_append _ _ Hc), (truthyStr_nonempty _ Hp), He, Hf, Ht.
Qed.

(** X16: a request for a package under either CDN prefix whose specifier is
    a key of the map with a non-empty value is sent to that value: [fetch]
    of the URL string calls [originalFetch] with the local path, [fetch] of
    a [Request] with a new [Request] for it, and both script-element
    setters, given the URL as a string, call [originalSetAttribute] with
    the local path.  Given the same URL as a value that is not a string,
    the setters throw a TypeError instead. *)
Theorem cdn_request_is_redirected {Init : Type}
  (depMap : object) (cdn pkg v : string) (init : Init) :
  Interceptor.isCdn cdn -> pkg <> "" -> endsWith pkg "/package.json" = false ->
  own depMap pkg = Some v -> v <> "" ->
  Interceptor.fetch depMap (Interceptor.InString (cdn ++ pkg)) init
  = Interceptor.Delegate (Interceptor.Url (Str v)) init
  /\ Interceptor.fetch depMap (Interceptor.InRequest (cdn ++ pkg)) init
     = Interceptor.Delegate
         (Interceptor.NewRequest (Str v) (Interceptor.InRequest (cdn ++ pkg))) init
  /\ Interceptor.setSrc depMap (Interceptor.AString (cdn ++ pkg))
     = Interceptor.OriginalSetAttribute "src" (Interceptor.AString v)
  /\ Interceptor.setAttribute depMap "src" (Interceptor.AString (cdn ++ pkg))
     = Interceptor.OriginalSetAttribute "src" (Interceptor.AString v)
  /\ Interceptor.setSrc depMap (Interceptor.ANotString (cdn ++ pkg))
     = Interceptor.TypeError
  /\ Interceptor.setAttribute depMap "src" (Interceptor.ANotString (cdn ++ pkg))
     = Interceptor.TypeError.
Proof.
  intros Hc Hp He Ho Hv.
  pose proof (cdnToLocal_resolved depMap cdn pkg (Str v) Hc Hp He
                (inline_exact_key _ _ _ Ho Hv) (truthyStr_nonempty _ Hv)) as Hl.
  unfold Interceptor.fetch, Interceptor.setSrc, Interceptor.setAttribute,
    Interceptor.rewriteSrc. cbn [Interceptor.urlOf String.eqb].
  rewrite Hl. repeat split.
Qed.

Lemma cdn_request_is_redirected_witness :
  Interceptor.fetch d3Only
    (Interceptor.InString "https://cdn.observableusercontent.com/npm/d3@7.8.5") tt
  = Interceptor.Delegate (Interceptor.Url (Str "libs/d3@7.8.5/d3.min.js")) tt.
Proof.
  apply (@cdn_request_is_redirected unit d3Only Interceptor.CDN_OBSERVABLE
           "d3@7.8.5" "libs/d3@7.8.5/d3.min.js" tt);
    first [right; reflexivity | discriminate | reflexivity].
Defined.

(** X17: the two CDN prefixes are interchangeable: [cdnToLocal] gives the
    same answer for a package under jsdelivr and under the Observable
    CDN. *)
Theorem cdn_prefixes_are_equivalent (depMap : object) (pkg : string) :
  Interceptor.cdnToLocal depMap (Interceptor.CDN_JSDELIVR ++ pkg)
  = Interceptor.cdnToLocal depMap (Interceptor.CDN_OBSERVABLE ++ pkg).
Proof.
  unfold Interceptor.cdnToLocal.
  now rewrite !stripCdn_append by (left; reflexivity) || (right; reflexivity).
Qed.

(** X18: an input of [fetch] that is neither a string nor a [Request] (a
    [URL] object, say) is never redirected: when the override delegates, it
    hands [originalFetch] the input it was given, also for a CDN URL the map
    resolves. *)
Theorem other_inputs_are_not_redirected {Init : Type}
  (depMap : object) (str : string) (init init' : Init)
  (a : Interceptor.forwarded) :
  Interceptor.fetch depMap (Interceptor.InOther str) init
  = Interceptor.Delegate a init' ->
  a = Interceptor.Unchanged (Interceptor.InOther str) /\ init' = init.
Proof.
  unfold Interceptor.fetch. cbn [Interceptor.urlOf].
  destruct (Interceptor.cdnToLocal depMap str) as [|v|pkgName].
  - intros H. now injection H as <- <-.
  - intros H. now injection H as <- <-.
  - destruct (Interceptor.findLocalPath depMap pkgName) as [[p|n]|]; cbn.
    + destruct (truthyStr p); [discriminate|]. intros H. now injection H as <- <-.
    + discriminate.
    + intros H. now injection H as <- <-.
Qed.

Lemma other_inputs_are_not_redirected_witness :
  Interceptor.cdnToLocal d3Only "https://cdn.jsdelivr.net/npm/d3@7.8.5"
  = Interceptor.LocalPath (Str "libs/d3@7.8.5/d3.min.js")
  /\ Interceptor.Unchanged (Interceptor.InOther "https://cdn.jsdelivr.net/npm/d3@7.8.5")
     = Interceptor.Unchanged (Interceptor.InOther "https://cdn.jsdelivr.net/npm/d3@7.8.5")
  /\ tt = tt.
Proof.
  split; [reflexivity|].
  apply (@other_inputs_are_not_redirected unit d3Only
           "https://cdn.jsdelivr.net/npm/d3@7.8.5" tt tt).
  reflexivity.
Defined.

(** X19: the script-element setters never replace a manifest URL: for a
    [.../package.json] under a CDN prefix given as a string, [cdnToLocal]
    returns its marker object, which is not a string, so
    [originalSetAttribute] gets the CDN URL, whether or not the package is
    in the map.  Given as a value that is not a string, the URL makes both
    setters throw a TypeError; no other attribute name is affected. *)
Theorem setters_keep_manifest_urls (depMap : object) (cdn pkg : string) :
  Interceptor.isCdn cdn -> endsWith pkg "/package.json" = true ->
  Interceptor.setSrc depMap (Interceptor.AString (cdn ++ pkg))
  = Interceptor.OriginalSetAttribute "src" (Interceptor.AString (cdn ++ pkg))
  /\ (forall name,
        Interceptor.setAttribute depMap name (Interceptor.AString (cdn ++ pkg))
        = Interceptor.OriginalSetAttribute name (Interceptor.AString (cdn ++ pkg)))
  /\ Interceptor.setSrc depMap (Interceptor.ANotString (cdn ++ pkg))
     = Interceptor.TypeError
  /\ (forall name,
        Interceptor.setAttribute depMap name (Interceptor.ANotString (cdn ++ pkg))
        = if String.eqb name "src" then Interceptor.TypeError
          else Interceptor.OriginalSetAttribute name
                 (Interceptor.ANotString (cdn ++ pkg))).
Proof.
  intros Hc He.
  assert (Hr : Interceptor.rewriteSrc depMap (Interceptor.AString (cdn ++ pkg))
               = Some (Interceptor.AString (cdn ++ pkg))).
  { unfold Interceptor.rewriteSrc, Interceptor.cdnToLocal.
    rewrite (stripCdn_append _ _ Hc), He.
    destruct pkg; [discriminate|reflexivity]. }
  unfold Interceptor.setSrc, Interceptor.setAttribute. rewrite Hr.
  split; [reflexivity|]. split; [|split; [reflexivity|]].
  - intros name. now destruct (String.eqb name "src").
  - intros name. now destruct (String.eqb name "src").
Qed.

Lemma setters_keep_manifest_urls_witness :
  Interceptor.setSrc d3Only
    (Interceptor.AString "https://cdn.jsdelivr.net/npm/d3@7.8.5/package.json")
  = Interceptor.OriginalSetAttribute "src"
      (Interceptor.AString "https://cdn.jsdelivr.net/npm/d3@7.8.5/package.json").
Proof.
  apply (setters_keep_manifest_urls d3Only Interceptor.CDN_JSDELIVR
           "d3@7.8.5/package.json"); [left|]; reflexivity.
Defined.

(** X20: a CDN request the map cannot answer is not dropped: when
    [findLocalPath] returns null for the package (and, for a manifest
    request, for the package of the manifest), [fetch] calls
    [originalFetch] with the input and init it was given. *)
Theorem unresolved_cdn_request_passes {Init : Type}
  (depMap : object) (cdn pkg : string) (i : Interceptor.input) (init : Init) :
  Interceptor.isCdn cdn -> Interceptor.urlOf i = cdn ++ pkg ->
  Interceptor.findLocalPath depMap pkg = None ->
  Interceptor.findLocalPath depMap (replace pkg "/package.json" "") = None ->
  Interceptor.fetch depMap i init
  = Interceptor.Delegate (Interceptor.Unchanged i) init.
Proof.
  intros Hc Hu Hf Hm. unfold Interceptor.fetch, Interceptor.cdnToLocal.
  rewrite Hu, (stripCdn_append _ _ Hc).
  destruct (truthyStr pkg); [|reflexivity].
  destruct (endsWith pkg "/package.json").
  - now rewrite Hm.
  - now rewrite Hf.
Qed.

Lemma unresolved_cdn_request_passes_witness :
  Interceptor.fetch d3Only
    (Interceptor.InString "https://cdn.jsdelivr.net/npm/htl@0.3.1") tt
  = Interceptor.Delegate
      (Interceptor.Unchanged
         (Interceptor.InString "https://cdn.jsdelivr.net/npm/htl@0.3.1")) tt.
Proof.
  apply (@unresolved_cdn_request_passes unit d3Only Interceptor.CDN_JSDELIVR
           "htl@0.3.1"); first [left; reflexivity | reflexivity].
Defined.

Lemma startsWith_separator a k :
  startsWith k (a ++ "/") = true ->
  startsWith k (a ++ "@") = false /\ String.eqb k a = false.
Proof.
  revert k. induction a as [|x a IH]; intros k H.
  - destruct k as [|c k]; [discriminate|]. cbn in *.
    apply andb_true_iff in H as [H _]. apply Ascii.eqb_eq in H. subst c.
    now split.
  - destruct k as [|c k]; [discriminate|]. cbn in *.
    apply andb_true_iff in H as [Hc H]. rewrite Hc.
    destruct (IH k H) as [H1 H2]. now rewrite H1, H2.
Qed.

(** X21: for a scoped specifier the package name the any-version scan of the
    inline resolver uses is the scope alone ([@scope]), because
    [split('@')[0]] is empty and [split('/')[0]] takes over; the scan then
    looks for keys starting with [@scope@], which the keys of a scoped
    package ([@scope/name@version]) never do. *)
Theorem pkgNameOf_scoped_is_scope (scope rest k : string) :
  lacks "/" scope = true ->
  startsWith k ("@" ++ scope ++ "/") = true ->
  Interceptor.pkgNameOf ("@" ++ scope ++ "/" ++ rest) = "@" ++ scope
  /\ startsWith k (Interceptor.pkgNameOf ("@" ++ scope ++ "/" ++ rest) ++ "@")
      || String.eqb k (Interceptor.pkgNameOf ("@" ++ scope ++ "/" ++ rest))
     = false.
Proof.
  intros Hs H.
  assert (Hp : Interceptor.pkgNameOf ("@" ++ scope ++ "/" ++ rest) = "@" ++ scope).
  { unfold Interceptor.pkgNameOf.
    assert (H1 : Interceptor.first (split "@" ("@" ++ scope ++ "/" ++ rest)) = "")
      by reflexivity.
    rewrite H1. cbn [truthyStr].
    change ("@" ++ scope ++ "/" ++ rest) with (("@" ++ scope) ++ String "/" rest).
    apply first_split_append. cbn. exact Hs. }
  rewrite Hp. split; [reflexivity|].
  destruct (startsWith_separator ("@" ++ scope) k H) as [H1 H2].
  now rewrite H1, H2.
Qed.

Lemma pkgNameOf_scoped_is_scope_witness :
  Interceptor.pkgNameOf "@observablehq/plot@0.5.0" = "@observablehq"
  /\ startsWith "@observablehq/plot@0.6.11"
        (Interceptor.pkgNameOf "@observablehq/plot@0.5.0" ++ "@")
      || String.eqb "@observablehq/plot@0.6.11"
           (Interceptor.pkgNameOf "@observablehq/plot@0.5.0")
     = false.
Proof.
  apply (pkgNameOf_scoped_is_scope "observablehq" "plot@0.5.0"
           "@observablehq/plot@0.6.11"); reflexivity.
Defined.

Lemma basename_of_path dir file :
  lacks "/" file = true -> Interceptor.basename (dir ++ "/" ++ file) = file.
Proof.
  intros Hf. unfold Interceptor.basename, pop.
  assert (H : forall d, exists h l,
               split "/" (d ++ String "/" file) = h :: List.app l [file]).
  { induction d as [|c d (h & l & IH)].
    - exists "", []. cbn. now rewrite (split_lacks _ _ Hf).
    - cbn. rewrite IH. destruct (Ascii.eqb c "/").
      + now exists "", (h :: l).
      + now exists (String c h), l. }
  destruct (H dir) as (h & l & Hl).
  change (dir ++ "/" ++ file) with (dir ++ String "/" file).
  rewrite Hl. cbn [rev]. rewrite rev_app_distr. reflexivity.
Qed.

(** X22: a manifest request for an unscoped [name@version] that resolves to
    a file [dir/file] is answered with that name, that version, and [file]
    as the three entry points [main], [jsdelivr] and [unpkg]. *)
Theorem manifest_names_package_and_file {Init : Type}
  (depMap : object) (cdn nm ver dir file : string) (init : Init) :
  Interceptor.isCdn cdn ->
  lacks "@" nm = true -> lacks "/" nm = true ->
  lacks "@" ver = true -> lacks "/" ver = true -> ver <> "" ->
  lacks "/" file = true ->
  Interceptor.findLocalPath depMap (nm ++ "@" ++ ver)
  = Some (Str (dir ++ "/" ++ file)) ->
  Interceptor.fetch depMap
    (Interceptor.InString (cdn ++ (nm ++ "@" ++ ver) ++ "/package.json")) init
  = Interceptor.Respond
      {| Interceptor.name := nm;
         Interceptor.version := ver;
         Interceptor.main := file;
         Interceptor.jsdelivr := file;
         Interceptor.unpkg := file |}.
Proof.
  intros Hc Hn1 Hn2 Hv1 Hv2 Hv Hf Hp.
  rewrite (manifest_of_unscoped_package depMap cdn nm ver (dir ++ "/" ++ file) init
             Hc Hn1 Hn2 Hv1 Hv2 Hv Hp) by (now destruct dir).
  now rewrite (basename_of_path _ _ Hf).
Qed.

Lemma manifest_names_package_and_file_witness :
  Interceptor.fetch d3Only
    (Interceptor.InString "https://cdn.jsdelivr.net/npm/d3@7.8.5/package.json") tt
  = Interceptor.Respond
      {| Interceptor.name := "d3";
         Interceptor.version := "7.8.5";
         Interceptor.main := "d3.min.js";
         Interceptor.jsdelivr := "d3.min.js";
         Interceptor.unpkg := "d3.min.js" |}.
Proof.
  apply (@manifest_names_package_and_file unit d3Only Interceptor.CDN_JSDELIVR
           "d3" "7.8.5" "libs/d3@7.8.5" "d3.min.js" tt);
    first [left; reflexivity | discriminate | reflexivity].
Defined.

(** X23: a manifest request for a package named without a version, which
    resolves to a file [dir/file], is answered with that name, the default
    version [1.0.0], and [file] as the three entry points. *)
Theorem manifest_defaults_version {Init : Type}
  (depMap : object) (cdn nm dir file : string) (init : Init) :
  Interceptor.isCdn cdn -> nm <> "" -> lacks "@" nm = true -> lacks "/" nm = true ->
  lacks "/" file = true ->
  Interceptor.findLocalPath depMap nm = Some (Str (dir ++ "/" ++ file)) ->
  Interceptor.fetch depMap
    (Interceptor.InString (cdn ++ nm ++ "/package.json")) init
  = Interceptor.Respond
      {| Interceptor.name := nm;
         Interceptor.version := "1.0.0";
         Interceptor.main := file;
         Interceptor.jsdelivr := file;
         Interceptor.unpkg := file |}.
Proof.
  intros Hc Hn Ha Hs Hf Hp.
  unfold Interceptor.fetch, Interceptor.cdnToLocal. cbn [Interceptor.urlOf].
  rewrite (stripCdn_append _ _ Hc), endsWith_append.
  replace (truthyStr (nm ++ "/package.json")) with true by (now destruct nm).
  rewrite (replace_suffix _ Hs), Hp. cbn [truthy].
  replace (truthyStr (dir ++ "/" ++ file)) with true by (now destruct dir).
  rewrite (split_lacks _ _ Ha), (basename_of_path _ _ Hf). reflexivity.
Qed.

Lemma manifest_defaults_version_witness :
  Interceptor.fetch [("htl", "libs/htl/htl.min.js")]
    (Interceptor.InString "https://cdn.jsdelivr.net/npm/htl/package.json") tt
  = Interceptor.Respond
      {| Interceptor.name := "htl";
         Interceptor.version := "1.0.0";
         Interceptor.main := "htl.min.js";
         Interceptor.jsdelivr := "htl.min.js";
         Interceptor.unpkg := "htl.min.js" |}.
Proof.
  apply (@manifest_defaults_version unit [("htl", "libs/htl/htl.min.js")]
           Interceptor.CDN_JSDELIVR "htl" "libs/htl" "htl.min.js" tt);
    first [left; reflexivity | discriminate | reflexivity].
Defined.


(** ** The filter *)

Lemma endsWith_slash_not_dot r :
  Filter.endsWithSlash r = true -> String.eqb r "." = false.
Proof.
  intros H. destruct (String.eqb r ".") eqn:E; [|reflexivity].
  apply String.eqb_eq in E. subst r. discriminate H.
Qed.

(** X24: the normalized project offset is empty or ends with a slash, so
    that [extension_dir] is the offset directly followed by
    [_extensions/ojs-offline/]; normalizing twice changes nothing. *)
Theorem offset_is_normalized (project_offset : option string) :
  (Filter.offsetOf project_offset = ""
   \/ Filter.endsWithSlash (Filter.offsetOf project_offset) = true)
  /\ Filter.offsetOf (Some (Filter.offsetOf project_offset))
     = Filter.offsetOf project_offset.
Proof.
  assert (H : Filter.offsetOf project_offset = ""
              \/ Filter.endsWithSlash (Filter.offsetOf project_offset) = true).
  { unfold Filter.offsetOf.
    destruct project_offset as [o|]; [|now left].
    destruct (String.eqb o "."); [now left|].
    destruct (String.eqb o "") eqn:E.
    - apply String.eqb_eq in E. subst o. now left.
    - cbn [negb andb]. destruct (Filter.endsWithSlash o) eqn:Es; cbn [negb].
      + now right.
      + right. apply endsWith_append. }
  split; [exact H|].
  destruct H as [H|H]; rewrite ?H.
  - reflexivity.
  - unfold Filter.offsetOf at 1.
    rewrite (endsWith_slash_not_dot _ H), H. cbn [negb].
    now rewrite andb_false_r.
Qed.

Lemma gsubFrom_skip pat rep u t :
  Filter.gsubFrom pat rep (String.length u) (u ++ t) = Filter.gsubFrom pat rep 0 t.
Proof. induction u as [|c u IH]; cbn; [reflexivity|exact IH]. Qed.

Lemma gsub_at_match p0 pat' rep t :
  Filter.gsub (String p0 pat' ++ t) (String p0 pat') rep
  = rep ++ Filter.gsub t (String p0 pat') rep.
Proof.
  unfold Filter.gsub.
  pose proof (startsWith_append (String p0 pat') t) as Hs.
  cbn [append] in *. cbn [Filter.gsubFrom]. rewrite Hs.
  replace (String.length (String p0 pat') - 1) with (String.length pat')
    by (cbn [String.length]; lia).
  now rewrite gsubFrom_skip.
Qed.

Lemma gsub_no_match pat rep c t :
  startsWith (String c t) pat = false ->
  Filter.gsub (String c t) pat rep = String c (Filter.gsub t pat rep).
Proof. intros H. unfold Filter.gsub. cbn [Filter.gsubFrom]. now rewrite H. Qed.

Lemma gsub_absent pat rep s :
  Filter.occurs pat s = false -> Filter.gsub s pat rep = s.
Proof.
  induction s as [|c s IH]; [reflexivity|].
  cbn [Filter.occurs]. intros H. apply orb_false_iff in H as [H1 H2].
  rewrite (gsub_no_match _ _ _ _ H1). now rewrite IH.
Qed.

Lemma placeholder_needs_quote c t :
  Ascii.eqb c "034" = false -> startsWith (String c t) Filter.placeholder = false.
Proof. intros H. cbn. now rewrite H. Qed.

Lemma occurs_after_quoteless u out :
  lacks "034" u = true ->
  Filter.occurs Filter.placeholder (u ++ out) = Filter.occurs Filter.placeholder out.
Proof.
  induction u as [|c u IH]; [reflexivity|]. intros H.
  cbn in H. apply andb_true_iff in H as [Hc Hu]. apply negb_true_iff in Hc.
  cbn [append Filter.occurs]. now rewrite (placeholder_needs_quote _ _ Hc), IH.
Qed.

(** What the rewritten text starts with, the input started with: a
    replacement begins with a quote. *)
Lemma gsub_prefix_reflects w :
  lacks "034" w = true ->
  forall t,
    startsWith (Filter.gsub t Filter.placeholder (Filter.quote ++ Filter.libs_base)) w
    = true ->
    startsWith t w = true.
Proof.
  induction w as [|x w IH]; [reflexivity|]. intros H t.
  cbn in H. apply andb_true_iff in H as [Hx Hw]. apply negb_true_iff in Hx.
  destruct t as [|c t]; [discriminate|].
  destruct (startsWith (String c t) Filter.placeholder) eqn:E.
  - assert (Hx' : Ascii.eqb "034" x = false)
      by (rewrite Ascii.eqb_sym; exact Hx).
    unfold Filter.gsub. cbn [Filter.gsubFrom]. rewrite E.
    unfold Filter.quote. cbn [append startsWith]. rewrite Hx'. discriminate.
  - rewrite (gsub_no_match _ _ _ _ E). cbn [startsWith].
    intros H. apply andb_true_iff in H as [-> H]. cbn. now apply IH.
Qed.

Lemma gsubFrom_leaves_none s :
  forall k,
    Filter.occurs Filter.placeholder
      (Filter.gsubFrom Filter.placeholder (Filter.quote ++ Filter.libs_base) k s)
    = false.
Proof.
  induction s as [|c s IH]; intros k; [reflexivity|].
  cbn [Filter.gsubFrom]. destruct k as [|k]; [|apply IH].
  destruct (startsWith (String c s) Filter.placeholder) eqn:E.
  - specialize (IH (String.length Filter.placeholder - 1)).
    set (out := Filter.gsubFrom Filter.placeholder
                  (Filter.quote ++ Filter.libs_base)
                  (String.length Filter.placeholder - 1) s) in *.
    change (Filter.occurs Filter.placeholder
              (String "034" (Filter.libs_base ++ out)) = false).
    cbn [Filter.occurs].
    rewrite occurs_after_quoteless by reflexivity. rewrite IH.
    reflexivity.
  - cbn [Filter.occurs]. rewrite IH, orb_false_r.
    destruct (Ascii.eqb c "034") eqn:Ec;
      [|now apply placeholder_needs_quote].
    apply Ascii.eqb_eq in Ec. subst c.
    destruct (startsWith
                (String "034"
                   (Filter.gsubFrom Filter.placeholder
                      (Filter.quote ++ Filter.libs_base) 0 s))
                Filter.placeholder) eqn:E'; [|reflexivity].
    cbn in E'. cbn in E.
    apply (gsub_prefix_reflects "ojs-offline-libs/" eq_refl) in E'.
    cbn in E'. congruence.
Qed.

(** X25: after the path transformation no placeholder (a double quote
    followed by [ojs-offline-libs/]) is left in the JSON text, and
    transforming a second time changes nothing. *)
Theorem transformPaths_leaves_no_placeholder (dep_map_json : string) :
  Filter.occurs Filter.placeholder (Filter.transformPaths dep_map_json) = false
  /\ Filter.transformPaths (Filter.transformPaths dep_map_json)
     = Filter.transformPaths dep_map_json.
Proof.
  assert (H : Filter.occurs Filter.placeholder (Filter.transformPaths dep_map_json)
              = false) by apply gsubFrom_leaves_none.
  split; [exact H|]. unfold Filter.transformPaths at 1. now apply gsub_absent.
Qed.

(** X26: a JSON text without a placeholder goes through the path
    transformation unchanged. *)
Theorem transformPaths_without_placeholder (dep_map_json : string) :
  Filter.occurs Filter.placeholder dep_map_json = false ->
  Filter.transformPaths dep_map_json = dep_map_json.
Proof. apply gsub_absent. Qed.

Lemma transformPaths_without_placeholder_witness :
  Filter.transformPaths "{ d3@7.8.5 : libs/d3@7.8.5/d3.min.js }"
  = "{ d3@7.8.5 : libs/d3@7.8.5/d3.min.js }".
Proof.
  apply (transformPaths_without_placeholder
           "{ d3@7.8.5 : libs/d3@7.8.5/d3.min.js }").
  reflexivity.
Defined.

Lemma transformPaths_at_placeholder rest :
  Filter.transformPaths (Filter.placeholder ++ rest)
  = Filter.quote ++ Filter.libs_base ++ Filter.transformPaths rest.
Proof.
  unfold Filter.transformPaths.
  change Filter.placeholder with (String "034" "ojs-offline-libs/").
  rewrite gsub_at_match. apply append_assoc'.
Qed.

(** X27: the first placeholder of the text, when no double quote precedes
    it, is replaced by a double quote and [libs_base], and the
    transformation goes on behind it: a value [ojs-offline-libs/p] becomes
    [site_libs/quarto-contrib/ojs-offline-libs-1.0.0/libs/p]. *)
Theorem transformPaths_rewrites_placeholder (before rest : string) :
  lacks "034" before = true ->
  Filter.transformPaths (before ++ Filter.placeholder ++ rest)
  = before ++ Filter.quote ++ Filter.libs_base ++ Filter.transformPaths rest.
Proof.
  intros H. unfold Filter.transformPaths.
  induction before as [|c before IH].
  - exact (transformPaths_at_placeholder rest).
  - cbn in H. apply andb_true_iff in H as [Hc Hb]. apply negb_true_iff in Hc.
    cbn [append]. rewrite gsub_no_match by now apply placeholder_needs_quote.
    now rewrite (IH Hb).
Qed.

Lemma transformPaths_rewrites_placeholder_witness :
  Filter.transformPaths
    ("{ d3 : " ++ Filter.placeholder ++ "d3@7.8.5/d3.min.js }")
  = "{ d3 : " ++ Filter.quote ++ Filter.libs_base
    ++ Filter.transformPaths "d3@7.8.5/d3.min.js }".
Proof.
  apply (transformPaths_rewrites_placeholder "{ d3 : " "d3@7.8.5/d3.min.js }").
  reflexivity.
Defined.

(** X28: when the map file cannot be opened, an HTML document gets the
    empty object as its inline map, with the warning logged; and the path
    of the file read is the normalized offset followed by
    [_extensions/ojs-offline/resources/dependency-map.json]. *)
Theorem missing_map_file_gives_empty_object (q : Filter.quarto) :
  Filter.is_html q = true ->
  Filter.read q
    (Filter.offsetOf (Filter.project_offset q)
     ++ "_extensions/ojs-offline/resources/dependency-map.json") = None ->
  Filter.depMapText q = Some "{}" /\ snd (Filter.readMap q) = true.
Proof.
  intros Hh Hr. unfold Filter.depMapText, Filter.readMap, Filter.map_path,
    Filter.extension_dir.
  rewrite Hh, append_assoc'.
  change ("_extensions/ojs-offline/" ++ "resources/dependency-map.json")
    with "_extensions/ojs-offline/resources/dependency-map.json".
  rewrite Hr. split; reflexivity.
Qed.

Lemma missing_map_file_gives_empty_object_witness :
  Filter.depMapText
    {| Filter.is_html := true; Filter.project_offset := Some "..";
       Filter.read := fun _ => None |} = Some "{}"
  /\ snd (Filter.readMap
            {| Filter.is_html := true; Filter.project_offset := Some "..";
               Filter.read := fun _ => None |}) = true.
Proof.
  apply (missing_map_file_gives_empty_object
           {| Filter.is_html := true; Filter.project_offset := Some "..";
              Filter.read := fun _ => None |}); reflexivity.
Defined.



